(** * ipfilter: the IP-range index and the filtered dialer of goproxy

    A shallow embedding of [ipfilter/iplist.go] together with the parts of
    the Go runtime and standard library it calls ([strings], [bufio],
    [encoding/binary], [net]), followed by the properties of the range
    index, the list loader and the routing dialer.

    Conventions of the embedding:
    - a Go [string] is a [string] (a sequence of 8-bit characters);
    - a [byte] is a [Z] in [0, 256); [net.IP] and [net.IPMask] are
      [list Z], the [nil] slice being the empty list (no function of the
      program builds an empty non-nil address or mask);
    - a run-time panic is the result [Panic];
    - a nil-able pointer or interface value is an [option];
    - the maps of the index are [gmap]s keyed by the byte or 16-bit key;
    - calls to the process-wide logger are left out. *)

From Stdlib Require Import ZArith Ascii String List Bool Lia.
From stdpp Require Import base option list gmap.

Local Open Scope Z_scope.

(** ** Go run time *)

Module Go.

(** The outcome of a Go call that may panic. *)
Inductive go (A : Type) : Type :=
| Ret (a : A)
| Panic (msg : string).
Arguments Ret {A} a.
Arguments Panic {A} msg.

#[export] Instance go_ret : MRet go := fun A a => Ret a.
#[export] Instance go_bind : MBind go := fun A B k m =>
  match m with
  | Ret a => k a
  | Panic msg => Panic msg
  end.

(** The values of the [error] interface the program can observe. *)
Inductive error : Type :=
| EOF                                   (* io.EOF *)
| ErrDNSNotFound                        (* ipfilter.ErrDNSNotFound *)
| ParseError (type text : string)       (* *net.ParseError *)
| AddrError (err addr : string)         (* *net.AddrError *)
| OtherError (msg : string).            (* any other error value *)

Definition ord (c : ascii) : Z := Z.of_N (N_of_ascii c).

Definition byte_of (n : Z) : Z := n mod 256.

(** [len(s)] *)
Definition len (s : string) : Z := Z.of_nat (String.length s).

(** [s[n:]] for [0 <= n <= len(s)] *)
Fixpoint string_drop (n : nat) (s : string) : string :=
  match n, s with
  | O, _ => s
  | S n', String _ s' => string_drop n' s'
  | S _, EmptyString => EmptyString
  end.

(** [s[:n]] for [0 <= n <= len(s)] *)
Fixpoint string_take (n : nat) (s : string) : string :=
  match n, s with
  | O, _ => EmptyString
  | S n', String c s' => String c (string_take n' s')
  | S _, EmptyString => EmptyString
  end.

(** [a[i]] on a slice: out of range panics. *)
Definition index {A} (a : list A) (i : nat) : go A :=
  match a !! i with
  | Some x => Ret x
  | None => Panic "index out of range"
  end.

(** [a[:n]] on a slice whose capacity is its length. *)
Definition slice_to {A} (a : list A) (n : nat) : go (list A) :=
  if (n <=? length a)%nat then Ret (take n a)
  else Panic "slice bounds out of range".

End Go.
Export Go.

(** ** Package strings *)

Module Strings.

(** [bytealg.IndexByteString]: first position of [c], or [-1]. *)
Fixpoint IndexByte (s : string) (c : ascii) : Z :=
  match s with
  | EmptyString => -1
  | String d s' =>
      if Ascii.eqb d c then 0
      else let i := IndexByte s' c in if i <? 0 then -1 else i + 1
  end.

(** [bytealg.LastIndexByteString]: last position of [c], or [-1]. *)
Fixpoint LastIndexByte (s : string) (c : ascii) : Z :=
  match s with
  | EmptyString => -1
  | String d s' =>
      let i := LastIndexByte s' c in
      if 0 <=? i then i + 1
      else if Ascii.eqb d c then 0 else -1
  end.

(** [strings.Split(s, sep)] for a one-byte separator: the pieces between
    the separators, always at least one. *)
Fixpoint Split (s : string) (sep : ascii) : list string :=
  match s with
  | EmptyString => [EmptyString]
  | String c s' =>
      if Ascii.eqb c sep then EmptyString :: Split s' sep
      else match Split s' sep with
           | piece :: pieces => String c piece :: pieces
           | [] => [String c EmptyString]
           end
  end.

Definition in_cutset (cutset : string) (c : ascii) : bool :=
  0 <=? IndexByte cutset c.

Fixpoint TrimLeft (s cutset : string) : string :=
  match s with
  | EmptyString => EmptyString
  | String c s' => if in_cutset cutset c then TrimLeft s' cutset else s
  end.

Fixpoint TrimRight (s cutset : string) : string :=
  match s with
  | EmptyString => EmptyString
  | String c s' =>
      match TrimRight s' cutset with
      | EmptyString =>
          if in_cutset cutset c then EmptyString else String c EmptyString
      | t => String c t
      end
  end.

(** [strings.Trim(s, cutset)] *)
Definition Trim (s cutset : string) : string :=
  TrimRight (TrimLeft s cutset) cutset.

(** [strings.HasSuffix(s, suffix)] *)
Definition HasSuffix (s suffix : string) : bool :=
  (String.length suffix <=? String.length s)%nat &&
  String.eqb (string_drop (String.length s - String.length suffix) s) suffix.

End Strings.

(** ** Package encoding/binary *)

Module Binary.

(** [binary.BigEndian.Uint16(b)]: reads [b[1]] and [b[0]]. *)
Definition BigEndian_Uint16 (b : list Z) : go Z :=
  b1 ← index b 1;
  b0 ← index b 0;
  mret (Z.lor b1 (Z.shiftl b0 8)).

End Binary.

(** ** Package net: addresses, masks and networks

    The textual parsers follow [net/parse.go] and [net/ip.go] of the Go
    standard library with its loop-based parsers ([dtoi], [xtoi],
    [parseIPv4], [parseIPv6], [ParseIP], [ParseCIDR]), as the program was
    written against.  Later releases parse through [net/netip] and differ
    on a few spellings (leading zeros in a dotted octet, groups of more
    than four hexadecimal digits); no line used below is one of them. *)

Module Net.

(** [net.IP] and [net.IPMask] are byte slices. *)
Abbreviation IP := (list Z) (only parsing).
Abbreviation IPMask := (list Z) (only parsing).

Record IPNet : Type := mkIPNet { ipnet_IP : IP; ipnet_Mask : IPMask }.

#[export] Instance IPNet_eq_dec : EqDecision IPNet.
Proof. solve_decision. Defined.

Definition IPv4len : Z := 4.
Definition IPv6len : Z := 16.

Definition v4InV6Prefix : list Z := [0; 0; 0; 0; 0; 0; 0; 0; 0; 0; 255; 255].

(** [net.IPv4(a, b, c, d)]: the 16-byte form of an IPv4 address. *)
Definition IPv4 (a b c d : Z) : IP := v4InV6Prefix ++ [a; b; c; d].

Definition isZeros (p : list Z) : bool := forallb (Z.eqb 0) p.

Definition allFF (b : list Z) : bool := forallb (Z.eqb 255) b.

Definition bytes_equal (a b : list Z) : bool := bool_decide (a = b).

(** [ip.To4()]: the 4-byte form of an IPv4 address, [nil] otherwise. *)
Definition To4 (ip : IP) : IP :=
  if bool_decide (length ip = 4%nat) then ip
  else if bool_decide (length ip = 16%nat)
          && isZeros (take 10 ip)
          && bool_decide (ip !! 10%nat = Some 255)
          && bool_decide (ip !! 11%nat = Some 255)
       then take 4 (drop 12 ip)
       else [].

(** The normalisation idiom of the program:
    [if x := ip.To4(); x != nil { ip = x }]. *)
Definition to4_or_self (ip : IP) : IP :=
  match To4 ip with
  | [] => ip
  | x => x
  end.

Definition big : Z := 16777215.   (* 0xFFFFFF *)

Definition is_digit (c : ascii) : bool := (48 <=? ord c) && (ord c <=? 57).

(** The loop of [dtoi]: [n] is the value so far, [i] the position. *)
Fixpoint dtoi_loop (s : string) (n : Z) (i : Z) : Z * Z * bool :=
  match s with
  | String c s' =>
      if is_digit c then
        let n' := n * 10 + (ord c - 48) in
        if big <=? n' then (big, i, false)
        else dtoi_loop s' n' (i + 1)
      else if i =? 0 then (0, 0, false) else (n, i, true)
  | EmptyString => if i =? 0 then (0, 0, false) else (n, i, true)
  end.

(** [dtoi(s)]: decimal to integer; the value, the number of characters
    consumed and a success flag. *)
Definition dtoi (s : string) : Z * Z * bool := dtoi_loop s 0 0.

Definition hex_value (c : ascii) : option Z :=
  if (48 <=? ord c) && (ord c <=? 57) then Some (ord c - 48)
  else if (97 <=? ord c) && (ord c <=? 102) then Some (ord c - 97 + 10)
  else if (65 <=? ord c) && (ord c <=? 70) then Some (ord c - 65 + 10)
  else None.

Fixpoint xtoi_loop (s : string) (n : Z) (i : Z) : Z * Z * bool :=
  match s with
  | String c s' =>
      match hex_value c with
      | Some d =>
          let n' := n * 16 + d in
          if big <=? n' then (0, i, false)
          else xtoi_loop s' n' (i + 1)
      | None => if i =? 0 then (0, i, false) else (n, i, true)
      end
  | EmptyString => if i =? 0 then (0, i, false) else (n, i, true)
  end.

(** [xtoi(s)]: hexadecimal to integer. *)
Definition xtoi (s : string) : Z * Z * bool := xtoi_loop s 0 0.

(** The loop of [parseIPv4]: [k] octets are still to be read, [p] holds
    the octets read so far. *)
Fixpoint parseIPv4_loop (k : nat) (s : string) (p : list Z) : IP :=
  match k with
  | O =>
      if negb (len s =? 0) then []
      else match p with
           | [a; b; c; d] => IPv4 a b c d
           | _ => []
           end
  | S k' =>
      if len s =? 0 then []                       (* missing octets *)
      else
        let after_dot :=
          match p with
          | [] => Some s                           (* i = 0 *)
          | _ => match s with
                 | String "." s' => Some s'
                 | _ => None
                 end
          end in
        match after_dot with
        | None => []
        | Some s1 =>
            let '(n, c, ok) := dtoi s1 in
            if negb ok || (255 <? n) then []
            else parseIPv4_loop k' (string_drop (Z.to_nat c) s1)
                                (p ++ [byte_of n])
        end
  end.

(** [parseIPv4(s)]: an address in dotted decimal form [d.d.d.d]. *)
Definition parseIPv4 (s : string) : IP := parseIPv4_loop 4 s [].

Definition set_byte (ip : list Z) (i : Z) (v : Z) : list Z :=
  <[Z.to_nat i := v]> ip.

Definition get_byte (ip : list Z) (i : Z) : Z :=
  default 0 (ip !! Z.to_nat i).

Definition char_at (s : string) (i : Z) : option ascii :=
  String.get (Z.to_nat i) s.

(** State of the loop of [parseIPv6]. *)
Record v6state : Type :=
  mkV6 { v6_i : Z; v6_s : string; v6_ip : list Z; v6_ellipsis : Z }.

(** The loop [for i < IPv6len] of [parseIPv6]; every turn advances [i] by
    two, so eight turns reach the end.  [None] is the result [nil]. *)
Fixpoint parseIPv6_loop (turns : nat) (st : v6state) : option v6state :=
  let '(mkV6 i s ip ellipsis) := st in
  if negb (i <? IPv6len) then Some st
  else
    match turns with
    | O => Some st
    | S turns' =>
        let '(n, c, ok) := xtoi s in
        if negb ok || (65535 <? n) then None
        else if (c <? len s) && bool_decide (char_at s c = Some "."%char) then
          (* followed by a dot: a trailing IPv4 address *)
          if (ellipsis <? 0) && negb (i =? IPv6len - IPv4len) then None
          else if IPv6len <? i + IPv4len then None
          else
            match parseIPv4 s with
            | [] => None
            | ip4 =>
                let ip := set_byte ip i (get_byte ip4 12) in
                let ip := set_byte ip (i + 1) (get_byte ip4 13) in
                let ip := set_byte ip (i + 2) (get_byte ip4 14) in
                let ip := set_byte ip (i + 3) (get_byte ip4 15) in
                Some (mkV6 (i + IPv4len) EmptyString ip ellipsis)
            end
        else
          (* save this 16-bit chunk *)
          let ip := set_byte ip i (byte_of (Z.shiftr n 8)) in
          let ip := set_byte ip (i + 1) (byte_of n) in
          let i := i + 2 in
          let s := string_drop (Z.to_nat c) s in
          if len s =? 0 then Some (mkV6 i s ip ellipsis)
          else
            match s with
            | String ":" s1 =>
                if len s =? 1 then None
                else
                  match s1 with
                  | String ":" s2 =>
                      if 0 <=? ellipsis then None
                      else if len s2 =? 0 then Some (mkV6 i s2 ip i)
                      else parseIPv6_loop turns' (mkV6 i s2 ip i)
                  | _ => parseIPv6_loop turns' (mkV6 i s1 ip ellipsis)
                  end
            | _ => None
            end
    end.

(** [for j := i - 1; j >= ellipsis; j-- { ip[j+n] = ip[j] }] *)
Fixpoint shift_up (count : nat) (j n : Z) (ip : list Z) : list Z :=
  match count with
  | O => ip
  | S count' => shift_up count' (j - 1) n (set_byte ip (j + n) (get_byte ip j))
  end.

(** [for j := ellipsis + n - 1; j >= ellipsis; j-- { ip[j] = 0 }] *)
Fixpoint clear_down (count : nat) (j : Z) (ip : list Z) : list Z :=
  match count with
  | O => ip
  | S count' => clear_down count' (j - 1) (set_byte ip j 0)
  end.

(** [parseIPv6(s)]: an IPv6 literal (RFC 4291), possibly with an embedded
    trailing IPv4 address and one [::]. *)
Definition parseIPv6 (s : string) : IP :=
  let ip0 := replicate 16 0 in
  let start :=
    match s with
    | String ":" (String ":" s') => mkV6 0 s' ip0 0
    | _ => mkV6 0 s ip0 (-1)
    end in
  if (0 <=? v6_ellipsis start) && (len (v6_s start) =? 0) then ip0
  else
    match parseIPv6_loop 8 start with
    | None => []
    | Some (mkV6 i s ip ellipsis) =>
        if negb (len s =? 0) then []               (* trailing garbage *)
        else if i <? IPv6len then
          if ellipsis <? 0 then []
          else
            let n := IPv6len - i in
            let ip := shift_up (Z.to_nat (i - ellipsis)) (i - 1) n ip in
            clear_down (Z.to_nat n) (ellipsis + n - 1) ip
        else if 0 <=? ellipsis then []
        else ip
    end.

Fixpoint first_dot_or_colon (s : string) : option ascii :=
  match s with
  | EmptyString => None
  | String c s' =>
      if Ascii.eqb c "." then Some "."%char
      else if Ascii.eqb c ":" then Some ":"%char
      else first_dot_or_colon s'
  end.

(** [net.ParseIP(s)]: the 16-byte form of the address, or [nil]. *)
Definition ParseIP (s : string) : IP :=
  match first_dot_or_colon s with
  | Some "."%char => parseIPv4 s
  | Some _ => parseIPv6 s
  | None => []
  end.

(** The loop of [CIDRMask]: [l] bytes are still to be written, [n] one
    bits are still to be placed. *)
Fixpoint CIDRMask_loop (l : nat) (n : Z) : list Z :=
  match l with
  | O => []
  | S l' =>
      if 8 <=? n then 255 :: CIDRMask_loop l' (n - 8)
      else (255 - Z.shiftr 255 n) :: CIDRMask_loop l' 0
  end.

(** [net.CIDRMask(ones, bits)] *)
Definition CIDRMask (ones bits : Z) : IPMask :=
  if negb (bits =? 8 * IPv4len) && negb (bits =? 8 * IPv6len) then []
  else if (ones <? 0) || (bits <? ones) then []
  else CIDRMask_loop (Z.to_nat (bits / 8)) ones.

(** [ip.Mask(mask)]: the address with the mask applied, [nil] when the
    lengths do not fit. *)
Definition Mask (ip : IP) (mask : IPMask) : IP :=
  let mask :=
    if bool_decide (length mask = 16%nat) && bool_decide (length ip = 4%nat)
       && allFF (take 12 mask)
    then drop 12 mask else mask in
  let ip :=
    if bool_decide (length mask = 4%nat) && bool_decide (length ip = 16%nat)
       && bytes_equal (take 12 ip) v4InV6Prefix
    then drop 12 ip else ip in
  if negb (bool_decide (length ip = length mask)) then []
  else zip_with Z.land ip mask.

(** [net.ParseCIDR(s)]: the address, the network and the error. *)
Definition ParseCIDR (s : string) : IP * option IPNet * option error :=
  let failure := ([], None, Some (ParseError "CIDR address" s)) in
  let i := Strings.IndexByte s "/" in
  if i <? 0 then failure
  else
    let addr := string_take (Z.to_nat i) s in
    let mask := string_drop (Z.to_nat (i + 1)) s in
    let '(iplen, ip) :=
      match parseIPv4 addr with
      | [] => (IPv6len, parseIPv6 addr)
      | ip => (IPv4len, ip)
      end in
    let '(n, i, ok) := dtoi mask in
    if bool_decide (ip = []) || negb ok || negb (i =? len mask)
       || (n <? 0) || (8 * iplen <? n)
    then failure
    else
      let m := CIDRMask n (8 * iplen) in
      (ip, Some (mkIPNet (Mask ip m) m), None).

(** The inner loop of [simpleMaskLength]: count the leading one bits of
    the byte [v], shifting them out. *)
Fixpoint leading_ones (bits : nat) (n v : Z) : Z * Z :=
  match bits with
  | O => (n, v)
  | S bits' =>
      if negb (Z.land v 128 =? 0)
      then leading_ones bits' (n + 1) (byte_of (Z.shiftl v 1))
      else (n, v)
  end.

(** [simpleMaskLength(mask)]: the number of leading ones of a mask made
    of ones followed by zeros, [-1] for any other mask. *)
Fixpoint simpleMaskLength_from (n : Z) (mask : list Z) : Z :=
  match mask with
  | [] => n
  | v :: rest =>
      if v =? 255 then simpleMaskLength_from (n + 8) rest
      else
        let '(n, v) := leading_ones 8 n v in
        if negb (v =? 0) then -1
        else if forallb (Z.eqb 0) rest then n else -1
  end.

Definition simpleMaskLength (mask : IPMask) : Z :=
  simpleMaskLength_from 0 mask.

(** [m.Size()]: the number of leading ones and the number of bits of the
    mask, [(0, 0)] when the mask is not in canonical form. *)
Definition Size (m : IPMask) : Z * Z :=
  let ones := simpleMaskLength m in
  let bits := Z.of_nat (length m) * 8 in
  if ones =? -1 then (0, 0) else (ones, bits).

(** [networkNumberAndMask(n)] *)
Definition networkNumberAndMask (n : IPNet) : IP * IPMask :=
  let ip := To4 (ipnet_IP n) in
  let ip_ok :=
    match ip with
    | [] => if bool_decide (length (ipnet_IP n) = 16%nat)
            then Some (ipnet_IP n) else None
    | _ => Some ip
    end in
  match ip_ok with
  | None => ([], [])
  | Some ip =>
      let m := ipnet_Mask n in
      if bool_decide (length m = 4%nat) then
        if bool_decide (length ip = 4%nat) then (ip, m) else ([], [])
      else if bool_decide (length m = 16%nat) then
        if bool_decide (length ip = 4%nat) then (ip, drop 12 m) else (ip, m)
      else ([], [])
  end.

(** The loop of [Contains]: [nn[i]&m[i] == ip[i]&m[i]] for every [i];
    the mask is as long as the network number. *)
Fixpoint masked_equal (nn m ip : list Z) : bool :=
  match nn, m, ip with
  | n0 :: nn', m0 :: m', x0 :: ip' =>
      if negb (Z.land n0 m0 =? Z.land x0 m0) then false
      else masked_equal nn' m' ip'
  | _, _, _ => true
  end.

(** [n.Contains(ip)] *)
Definition Contains (n : IPNet) (ip : IP) : bool :=
  let '(nn, m) := networkNumberAndMask n in
  let ip := to4_or_self ip in
  if negb (bool_decide (length ip = length nn)) then false
  else masked_equal nn m ip.

(** [net.SplitHostPort(hostport)] *)
Definition SplitHostPort (hostport : string)
  : string * string * option error :=
  let addrErr (why : string) :=
    (EmptyString, EmptyString, Some (AddrError why hostport)) in
  let i := Strings.LastIndexByte hostport ":" in
  if i <? 0 then addrErr "missing port in address"%string
  else
    let bracketed :=
      match hostport with
      | String "[" _ =>
          let e := Strings.IndexByte hostport "]" in
          if e <? 0 then inl (addrErr "missing ']' in address"%string)
          else if e + 1 =? len hostport
          then inl (addrErr "missing port in address"%string)
          else if e + 1 =? i
          then inr (string_take (Z.to_nat (e - 1)) (string_drop 1 hostport),
                    1, e + 1)
          else if bool_decide (char_at hostport (e + 1) = Some ":"%char)
          then inl (addrErr "too many colons in address"%string)
          else inl (addrErr "missing port in address"%string)
      | _ =>
          let host := string_take (Z.to_nat i) hostport in
          if 0 <=? Strings.IndexByte host ":"
          then inl (addrErr "too many colons in address"%string)
          else inr (host, 0, 0)
      end in
    match bracketed with
    | inl failure => failure
    | inr (host, j, k) =>
        if 0 <=? Strings.IndexByte (string_drop (Z.to_nat j) hostport) "["
        then addrErr "unexpected '[' in address"%string
        else if 0 <=? Strings.IndexByte (string_drop (Z.to_nat k) hostport) "]"
        then addrErr "unexpected ']' in address"%string
        else (host, string_drop (Z.to_nat (i + 1)) hostport, None)
    end.

End Net.

(** ** Package bufio, and the files of package os *)

Module Bufio.

(** An [io.Reader] behind a [bufio.Reader]: the bytes it still delivers
    and the error that ends it ([EOF] for a clean end). *)
Record Reader : Type := mkReader { rd_data : string; rd_err : error }.

(** [reader.ReadString(delim)]: the bytes up to and including the first
    [delim]; when the stream ends before one, what was read together with
    the error of the stream. *)
Definition ReadString (r : Reader) (delim : ascii)
  : string * option error * Reader :=
  let i := Strings.IndexByte (rd_data r) delim in
  if 0 <=? i then
    (string_take (Z.to_nat (i + 1)) (rd_data r), None,
     mkReader (string_drop (Z.to_nat (i + 1)) (rd_data r)) (rd_err r))
  else
    (rd_data r, Some (rd_err r), mkReader EmptyString (rd_err r)).

End Bufio.

Module OS.

(** What the program sees of the file system: [os.Open] and
    [gzip.NewReader], each giving a reader or an error. *)
Record FileSystem : Type := mkFS {
  Open : string -> Bufio.Reader + error;
  gzip_NewReader : Bufio.Reader -> Bufio.Reader + error
}.

End OS.

(** ** Package ipfilter *)

Module Ipfilter.
Import Net.

(** [netutil.Dialer]: an interface with [Dial(network, address)]. *)
Definition Conn := nat.

Record Dialer : Type := mkDialer {
  dialer_name : string;
  dialer_Dial : string -> string -> option Conn * option error
}.

(** [dns.Resolver]: an interface with [LookupIP(hostname)]; the slice it
    returns may be [nil] ([None]) or empty but not nil ([Some []]). *)
Record Resolver : Type := mkResolver {
  LookupIP : string -> option (list IP) * option error
}.

(** The calls [Dial] makes on its collaborators, in order. *)
Inductive event : Type :=
| EvLookupIP (hostname : string)
| EvDial (dialer network address : string).

(** A computation that calls collaborators and may panic. *)
Definition io (A : Type) : Type := list event * go A.

#[export] Instance io_ret : MRet io := fun A a => ([], Ret a).
#[export] Instance io_bind : MBind io := fun A B k m =>
  match m with
  | (t, Ret a) => let '(t', r) := k a in (t ++ t', r)
  | (t, Panic msg) => (t, Panic msg)
  end.

Definition lift {A} (m : go A) : io A := ([], m).

Definition call_LookupIP (r : Resolver) (hostname : string)
  : io (option (list IP) * option error) :=
  ([EvLookupIP hostname], Ret (LookupIP r hostname)).

Definition call_Dial (d : Dialer) (network address : string)
  : io (option Conn * option error) :=
  ([EvDial (dialer_name d) network address],
   Ret (dialer_Dial d network address)).

(** A [for ... range] loop whose body may [return]: [Some v] is the
    returned value, [None] means the loop ran to its end. *)
Fixpoint for_range {A R} (l : list A) (body : A -> io (option R))
  : io (option R) :=
  match l with
  | [] => mret None
  | x :: l' =>
      r ← body x;
      match r with
      | Some v => mret (Some v)
      | None => for_range l' body
      end
  end.

Record IPFilter : Type := mkIPFilter {
  rest : list IPNet;
  idx1 : gmap Z (list IPNet);
  idx2 : gmap Z (list IPNet)
}.

Fixpoint ListConatins (iplist : list IPNet) (ip : IP) : bool :=
  match iplist with
  | [] => false
  | ipnet :: iplist' =>
      if Contains ipnet ip then true else ListConatins iplist' ip
  end.

Definition Contain (f : IPFilter) (ip : IP) : go bool :=
  let ip := to4_or_self ip in
  b ← slice_to ip 2;
  prefix2 ← Binary.BigEndian_Uint16 b;
  if match idx2 f !! prefix2 with
     | Some iplist => ListConatins iplist ip
     | None => false
     end
  then mret true
  else
    prefix1 ← index ip 0;
    if match idx1 f !! prefix1 with
       | Some iplist => ListConatins iplist ip
       | None => false
       end
    then mret true
    else if ListConatins (rest f) ip then mret true
    else mret false.

Definition ParseLine (line : string) : go (option IPNet * option error) :=
  let '(_, ipnet, err) := ParseCIDR line in
  match err with
  | None => mret (ipnet, err)
  | Some _ =>
      let addrs := Strings.Split line " " in
      a0 ← index addrs 0;
      let ip := to4_or_self (ParseIP a0) in
      a1 ← index addrs 1;
      let mask := to4_or_self (ParseIP a1) in
      mret (Some (mkIPNet ip mask), None)
  end.

(** [append(m[k], v)] stored back under [k]. *)
Definition map_append (m : gmap Z (list IPNet)) (k : Z) (v : IPNet)
  : gmap Z (list IPNet) :=
  <[k := default [] (m !! k) ++ [v]]> m.

(** The classification step of [ReadIPList] (the [switch] on [ones]). *)
Definition insert_range (filter : IPFilter) (ipnet : IPNet) : go IPFilter :=
  let '(ones, _) := Size (ipnet_Mask ipnet) in
  if ones <? 8 then
    mret (mkIPFilter (rest filter ++ [ipnet]) (idx1 filter) (idx2 filter))
  else if (8 <=? ones) && (ones <? 16) then
    prefix ← index (ipnet_IP ipnet) 0;
    mret (mkIPFilter (rest filter) (map_append (idx1 filter) prefix ipnet)
                     (idx2 filter))
  else
    b ← slice_to (ipnet_IP ipnet) 2;
    prefix ← Binary.BigEndian_Uint16 b;
    mret (mkIPFilter (rest filter) (idx1 filter)
                     (map_append (idx2 filter) prefix ipnet)).

(** The characters [ReadIPList] trims from a line: ["\r\n "]. *)
Definition cutset : string := String "013" (String "010" " ").

(** One turn of the loop of [ReadIPList] after the read: trim the line,
    parse it and classify the range; [inr err] when the parser returns
    the error [err]. *)
Definition load_line (filter : IPFilter) (line : string)
  : go (IPFilter + error) :=
  let line := Strings.Trim line cutset in
  '(ipnet, err) ← ParseLine line;
  match err with
  | Some err => mret (inr err)
  | None =>
      match ipnet with
      | None => Panic "nil pointer dereference"
      | Some ipnet =>
          filter ← insert_range filter ipnet;
          mret (inl filter)
      end
  end.

(** The loop of [ReadIPList]; [None] when [turns] turns were not enough
    to reach the end of the stream. *)
Fixpoint ReadIPList_loop (turns : nat) (reader : Bufio.Reader)
    (filter : IPFilter) : option (go (option IPFilter * option error)) :=
  match turns with
  | O => None
  | S turns' =>
      let '(line, err, reader) := Bufio.ReadString reader "010" in
      let process :=
        match load_line filter line with
        | Panic msg => Some (Panic msg)
        | Ret (inr err) => Some (Ret (None, Some err))
        | Ret (inl filter) => ReadIPList_loop turns' reader filter
        end in
      match err with
      | Some EOF =>
          if len line =? 0 then Some (Ret (Some filter, None)) else process
      | None => process
      | Some err => Some (Ret (None, Some err))
      end
  end.

Definition ReadIPList (f : Bufio.Reader)
  : go (option IPFilter * option error) :=
  let filter := mkIPFilter [] ∅ ∅ in
  match ReadIPList_loop (S (String.length (Bufio.rd_data f))) f filter with
  | Some result => result
  | None => Panic "unreachable"
  end.

Definition ReadIPListFile (fs : OS.FileSystem) (filename : string)
  : go (option IPFilter * option error) :=
  match OS.Open fs filename with
  | inr err => mret (None, Some err)
  | inl f =>
      if Strings.HasSuffix filename ".gz" then
        match OS.gzip_NewReader fs f with
        | inr err => mret (None, Some err)
        | inl f => ReadIPList f
        end
      else ReadIPList f
  end.

Record FilterPair : Type := mkFilterPair {
  fp_dialer : Dialer;
  fp_filter : option IPFilter
}.

Record FilteredDialer : Type := mkFilteredDialer {
  fd_dialer : Dialer;
  fd_Resolver : Resolver;
  fps : list FilterPair
}.

(** [CreateDNSCache] is defined in another file of the package; its
    result is passed in. *)
Definition NewFilteredDialer (dialer : Dialer) (CreateDNSCache : Resolver)
  : FilteredDialer :=
  mkFilteredDialer dialer CreateDNSCache [].

(** [fd.LoadFilter(dialer, filename)]: the dialer after the call and the
    error returned. *)
Definition LoadFilter (fs : OS.FileSystem) (fd : FilteredDialer)
    (dialer : Dialer) (filename : string)
  : go (FilteredDialer * option error) :=
  '(filter, err) ← ReadIPListFile fs filename;
  let fp := mkFilterPair dialer filter in
  mret (mkFilteredDialer (fd_dialer fd) (fd_Resolver fd) (fps fd ++ [fp]),
        err).

Definition Getaddrs (resolver : Resolver) (hostname : string)
  : io (option (list IP)) :=
  match ParseIP hostname with
  | [] =>
      '(ips, err) ← call_LookupIP resolver hostname;
      mret ips
  | ip => mret (Some [ip])
  end.

(** [fp.filter.Contain(addr)] through the pointer [fp.filter]. *)
Definition filter_Contain (filter : option IPFilter) (addr : IP) : go bool :=
  match filter with
  | None => Panic "nil pointer dereference"
  | Some f => Contain f addr
  end.

(** The body of the inner loop of [Dial]: dial through the pair when its
    index contains the address. *)
Definition try_addr (network address : string) (fp : FilterPair) (addr : IP)
  : io (option (option Conn * option error)) :=
  hit ← lift (filter_Contain (fp_filter fp) addr);
  if hit : bool then
    res ← call_Dial (fp_dialer fp) network address;
    mret (Some res)
  else mret None.

(** The body of the outer loop of [Dial]: the inner loop over the
    candidate addresses. *)
Definition try_pair (network address : string) (addrs : list IP)
    (fp : FilterPair) : io (option (option Conn * option error)) :=
  for_range addrs (try_addr network address fp).

Definition Dial (fd : FilteredDialer) (network address : string)
  : io (option Conn * option error) :=
  if bool_decide (length (fps fd) = 0%nat) then
    call_Dial (fd_dialer fd) network address
  else
    let '(hostname, _, err) := SplitHostPort address in
    match err with
    | Some _ => mret (None, err)
    | None =>
        addrs ← Getaddrs (fd_Resolver fd) hostname;
        match addrs with
        | None => mret (None, Some ErrDNSNotFound)
        | Some addrs =>
            r ← for_range (fps fd) (try_pair network address addrs);
            match r with
            | Some res => mret res
            | None => call_Dial (fd_dialer fd) network address
            end
        end
    end.

End Ipfilter.

(** ** Notions used to state the properties *)

Module Spec.
Import Net Ipfilter.

(** Modelled on the words of the specification: a linear scan of the
    whole unpartitioned range set for a range containing the address. *)
Definition linear_scan (ranges : list IPNet) (ip : IP) : bool :=
  existsb (fun ipnet => Contains ipnet ip) ranges.

(** The successive results of [ReadString('\n')] on the bytes [s]: the
    terminated lines, each with its terminator, and the unterminated
    remainder. *)
Fixpoint read_strings (s : string) : list string * string :=
  match s with
  | EmptyString => ([], EmptyString)
  | String c s' =>
      let '(lines, remainder) := read_strings s' in
      if Ascii.eqb c "010" then (String c EmptyString :: lines, remainder)
      else match lines with
           | [] => ([], String c remainder)
           | line :: lines' => (String c line :: lines', remainder)
           end
  end.

(** The lines [ReadIPList] hands to the parser: every terminated line,
    and the unterminated remainder when the stream ends cleanly with a
    non-empty one. *)
Definition stream_lines (r : Bufio.Reader) : list string :=
  let '(lines, remainder) := read_strings (Bufio.rd_data r) in
  match Bufio.rd_err r, remainder with
  | EOF, String _ _ => lines ++ [remainder]
  | _, _ => lines
  end.

(** [load_line] over a sequence of lines, stopping at the first error. *)
Fixpoint load_lines (filter : IPFilter) (lines : list string)
  : go (IPFilter + error) :=
  match lines with
  | [] => mret (inl filter)
  | line :: lines' =>
      r ← load_line filter line;
      match r with
      | inl filter => load_lines filter lines'
      | inr err => mret (inr err)
      end
  end.

(** What [ReadIPList] returns once the lines have been loaded. *)
Definition finish (err : error) (r : go (IPFilter + error))
  : go (option IPFilter * option error) :=
  match r with
  | Ret (inl filter) =>
      match err with
      | EOF => Ret (Some filter, None)
      | _ => Ret (None, Some err)
      end
  | Ret (inr e) => Ret (None, Some e)
  | Panic msg => Panic msg
  end.

(** The index [ReadIPList] starts from. *)
Definition empty_filter : IPFilter := mkIPFilter [] ∅ ∅.

(** The stream made of the given lines, each followed by a terminator. *)
Fixpoint terminated (lines : list string) : string :=
  match lines with
  | [] => EmptyString
  | line :: lines' =>
      (line ++ String "010" EmptyString ++ terminated lines')%string
  end.

(** A trace made of at most one resolver lookup. *)
Definition only_lookup (t : list event) : Prop :=
  t = [] \/ exists hostname, t = [EvLookupIP hostname].

(** [Contain] returned true. *)
Definition is_hit (f : IPFilter) (addr : IP) : bool :=
  match Contain f addr with
  | Ret true => true
  | _ => false
  end.

(** Padding around a line: spaces and carriage returns. *)
Fixpoint is_padding (p : string) : bool :=
  match p with
  | EmptyString => true
  | String c p' => (Ascii.eqb c " " || Ascii.eqb c "013") && is_padding p'
  end.

(** [padded] is [line] with padding before and after it. *)
Definition padded_of (line padded : string) : Prop :=
  exists before after,
    is_padding before = true /\ is_padding after = true
    /\ padded = (before ++ line ++ after)%string.

(** The range a line stands for, when the parser returns one. *)
Definition parses_to (line : string) (ipnet : IPNet) : Prop :=
  ParseLine (Strings.Trim line cutset) = Ret (Some ipnet, None).

(** A line in one of the two forms of the range list format: CIDR
    notation, or two tokens [address mask] that both parse as IP
    addresses. *)
Definition is_range_line (line : string) : bool :=
  match ParseCIDR line with
  | (_, Some _, None) => true
  | _ =>
      match Strings.Split line " " with
      | a :: m :: _ =>
          negb (bool_decide (ParseIP a = [])) &&
          negb (bool_decide (ParseIP m = []))
      | _ => false
      end
  end.

(** The prefix length [ReadIPList] classifies a range by. *)
Definition prefix_length (ipnet : IPNet) : Z := fst (Size (ipnet_Mask ipnet)).

(** The first address byte, and the first two as a big-endian value. *)
Definition byte_key (ipnet : IPNet) : option Z := ipnet_IP ipnet !! 0%nat.

Definition word_key (ipnet : IPNet) : option Z :=
  match ipnet_IP ipnet with
  | b0 :: b1 :: _ => Some (Z.lor b1 (Z.shiftl b0 8))
  | _ => None
  end.

(** The buckets of the index. *)
Inductive bucket_id : Type :=
| Coarse
| ByteBucket (key : Z)
| WordBucket (key : Z).

#[export] Instance bucket_id_eq_dec : EqDecision bucket_id.
Proof. solve_decision. Defined.

(** The bucket of a range: chosen by its prefix length [p], coarse when
    [p < 8], keyed by the first address byte when [8 <= p < 16], keyed by
    the first two address bytes when [16 <= p]. *)
Definition bucket_of (ipnet : IPNet) : option bucket_id :=
  let p := prefix_length ipnet in
  if p <? 8 then Some Coarse
  else if p <? 16 then ByteBucket <$> byte_key ipnet
  else WordBucket <$> word_key ipnet.

Definition in_bucket (id : bucket_id) (ipnet : IPNet) : bool :=
  bool_decide (bucket_of ipnet = Some id).

(** The ranges an index holds in a bucket. *)
Definition bucket_content (f : IPFilter) (id : bucket_id) : list IPNet :=
  match id with
  | Coarse => rest f
  | ByteBucket k => default [] (idx1 f !! k)
  | WordBucket k => default [] (idx2 f !! k)
  end.

(** The index holds exactly the ranges [ranges], each in its bucket, in
    loading order. *)
Definition classifies (f : IPFilter) (ranges : list IPNet) : Prop :=
  forall id, bucket_content f id = List.filter (in_bucket id) ranges.

(** A byte value. *)
Definition is_byte (b : Z) : Prop := 0 <= b < 256.

(** A well-formed address: 4 or 16 bytes. *)
Definition valid_ip (ip : IP) : Prop :=
  (length ip = 4%nat \/ length ip = 16%nat) /\ Forall is_byte ip.

(** A range whose base address and mask belong to the same address
    family, the base not being an IPv4 address kept in 16-byte form. *)
Definition same_family (ipnet : IPNet) : Prop :=
  length (ipnet_IP ipnet) = length (ipnet_Mask ipnet)
  /\ (length (ipnet_IP ipnet) = 4%nat \/ To4 (ipnet_IP ipnet) = [])
  /\ Forall is_byte (ipnet_IP ipnet)
  /\ Forall is_byte (ipnet_Mask ipnet).

(** The stream [ReadIPListFile] hands to [ReadIPList]: the opened file,
    or the gzip reader over it when the name ends in [.gz]. *)
Definition file_stream (fs : OS.FileSystem) (filename : string)
    (stream : Bufio.Reader) : Prop :=
  exists file,
    OS.Open fs filename = inl file
    /\ if Strings.HasSuffix filename ".gz"
       then OS.gzip_NewReader fs file = inl stream
       else stream = file.

End Spec.

(** ** Collaborators and inputs used in the examples *)

Module Fixtures.
Import Net Ipfilter Spec.

Definition nl : string := String "010" EmptyString.

Definition default_dialer : Dialer :=
  mkDialer "default" (fun _ _ => (Some 0%nat, None)).

Definition first_dialer : Dialer :=
  mkDialer "first" (fun _ _ => (Some 1%nat, None)).

Definition second_dialer : Dialer :=
  mkDialer "second" (fun _ _ => (None, Some (OtherError "connection refused"))).

(** A resolver that answers every lookup with the same slice. *)
Definition constant_resolver (ips : option (list IP)) : Resolver :=
  mkResolver (fun _ => (ips, None)).

(** A resolver that fails every lookup. *)
Definition failing_resolver : Resolver :=
  mkResolver (fun _ => (None, Some (OtherError "no such host"))).

(** A file system without any file. *)
Definition no_files : OS.FileSystem :=
  OS.mkFS (fun _ => inr (OtherError "no such file or directory"))
          (fun f => inl f).

(** The index of the single range [10.0.0.0/8]. *)
Definition ten_slash_8 : IPNet := mkIPNet [10; 0; 0; 0] [255; 0; 0; 0].

Definition filter_ten : IPFilter :=
  mkIPFilter [] {[ 10 := [ten_slash_8] ]} ∅.

(** The range [ParseCIDR] returns for ["::ffff:10.0.0.0/104"]. *)
Definition mapped_ten : IPNet :=
  mkIPNet [0; 0; 0; 0; 0; 0; 0; 0; 0; 0; 255; 255; 10; 0; 0; 0]
          [255; 255; 255; 255; 255; 255; 255; 255; 255; 255; 255; 255;
           255; 0; 0; 0].

Definition filter_mapped_ten : IPFilter :=
  mkIPFilter [] ∅ {[ 0 := [mapped_ten] ]}.

(** The range [ParseLine] returns for the two-token line
    ["1.2.3.4 ffff::"]: an IPv4 address with a 16-byte mask. *)
Definition mixed_range : IPNet :=
  mkIPNet [1; 2; 3; 4] [255; 255; 0; 0; 0; 0; 0; 0; 0; 0; 0; 0; 0; 0; 0; 0].

Definition mixed_line : Bufio.Reader :=
  Bufio.mkReader ("1.2.3.4 ffff::" ++ nl) EOF.

(** A dialer with the pairs of [first_dialer] and [second_dialer], both
    bound to the index of [10.0.0.0/8]. *)
Definition two_pairs (resolver : Resolver) : FilteredDialer :=
  mkFilteredDialer default_dialer resolver
    [mkFilterPair first_dialer (Some filter_ten);
     mkFilterPair second_dialer (Some filter_ten)].

(** A stream of three ranges, one for each bucket, and its index. *)
Definition three_lines : Bufio.Reader :=
  Bufio.mkReader ("10.0.0.0/8" ++ nl ++ "1.2.3.4/32" ++ nl ++ "0.0.0.0/4" ++ nl)
                 EOF.

Definition filter_three : IPFilter :=
  mkIPFilter [mkIPNet [0; 0; 0; 0] [240; 0; 0; 0]]
             {[ 10 := [ten_slash_8] ]}
             {[ 258 := [mkIPNet [1; 2; 3; 4] [255; 255; 255; 255]] ]}.

(** Load the one-line list [line] and ask the index for [ip]. *)
Definition load_and_query (line : string) (ip : IP) : go bool :=
  match ReadIPList (Bufio.mkReader (line ++ nl) EOF) with
  | Ret (Some f, _) => Contain f ip
  | Ret (None, _) => Panic "no index"
  | Panic msg => Panic msg
  end.

(** A dialer with the single pair of [first_dialer], bound to the index
    of [10.0.0.0/8]. *)
Definition one_pair (resolver : Resolver) : FilteredDialer :=
  mkFilteredDialer default_dialer resolver
    [mkFilterPair first_dialer (Some filter_ten)].

(** The range the fallback form of [ParseLine] returns when neither
    token parses. *)
Definition nil_range : IPNet := mkIPNet [] [].

(** A file system with the single file ["list.txt"], holding
    [three_lines]. *)
Definition one_file : OS.FileSystem :=
  OS.mkFS (fun name =>
             if String.eqb name "list.txt" then inl three_lines
             else inr (OtherError "no such file or directory"))
          (fun f => inl f).

(** A file system with the single file ["list.gz"], whose compressed
    stream is cut short: the gzip reader delivers one line and a half and
    then fails. *)
Definition truncated_gz : OS.FileSystem :=
  OS.mkFS (fun name =>
             if String.eqb name "list.gz"
             then inl (Bufio.mkReader "compressed bytes" EOF)
             else inr (OtherError "no such file or directory"))
          (fun _ => inl (Bufio.mkReader ("10.0.0.0/8" ++ nl ++ "1.2.3")
                                        (OtherError "unexpected EOF"))).

End Fixtures.

Import Net Ipfilter Spec.

(** ** Strings and the line reader *)

Lemma IndexByte_bounds (s : string) (c : ascii) :
  -1 <= Strings.IndexByte s c < len s.
Proof.
  unfold len. induction s as [|d s IH]; simpl; [lia|].
  destruct (Ascii.eqb d c); [lia|].
  destruct (Strings.IndexByte s c <? 0) eqn:E; lia.
Qed.

Lemma read_strings_no_newline (s : string) :
  Strings.IndexByte s "010" < 0 -> read_strings s = ([], s).
Proof.
  induction s as [|d s IH]; simpl; [done|].
  destruct (Ascii.eqb d "010"); [lia|].
  destruct (Strings.IndexByte s "010" <? 0) eqn:E; [|lia].
  intros _. rewrite IH by lia. done.
Qed.

Lemma read_strings_newline (s : string) :
  0 <= Strings.IndexByte s "010" ->
  let i := Z.to_nat (Strings.IndexByte s "010" + 1) in
  read_strings s =
    (string_take i s :: fst (read_strings (string_drop i s)),
     snd (read_strings (string_drop i s))).
Proof.
  induction s as [|d s IH]; simpl; [lia|].
  destruct (Ascii.eqb d "010") eqn:Ed.
  - intros _. simpl. destruct (read_strings s); done.
  - destruct (Strings.IndexByte s "010" <? 0) eqn:E; [lia|].
    intros _. specialize (IH ltac:(lia)). simpl in IH.
    replace (Z.to_nat (Strings.IndexByte s "010" + 1 + 1))
      with (S (Z.to_nat (Strings.IndexByte s "010" + 1))) by lia.
    simpl. rewrite IH. done.
Qed.

Lemma string_drop_length (n : nat) (s : string) :
  String.length (string_drop n s) = (String.length s - n)%nat.
Proof.
  revert s; induction n as [|n IH]; intros [|c s]; simpl; auto with lia.
Qed.

Lemma stream_lines_newline (data : string) (err : error) :
  0 <= Strings.IndexByte data "010" ->
  let i := Z.to_nat (Strings.IndexByte data "010" + 1) in
  stream_lines (Bufio.mkReader data err) =
    string_take i data :: stream_lines (Bufio.mkReader (string_drop i data) err).
Proof.
  intros H i. unfold stream_lines; simpl.
  rewrite (read_strings_newline data H). fold i.
  destruct (read_strings (string_drop i data)) as [ls tl]; simpl.
  destruct err, tl; done.
Qed.

Lemma ReadIPList_loop_lines (turns : nat) :
  forall (data : string) (err : error) (filter : IPFilter),
    (String.length data < turns)%nat ->
    ReadIPList_loop turns (Bufio.mkReader data err) filter =
      Some (finish err
              (load_lines filter (stream_lines (Bufio.mkReader data err)))).
Proof.
  induction turns as [|turns IH]; intros data err filter Hlen; [lia|].
  pose proof (IndexByte_bounds data "010") as Hb. unfold len in Hb.
  cbn [ReadIPList_loop]. unfold Bufio.ReadString. cbn [Bufio.rd_data Bufio.rd_err].
  destruct (0 <=? Strings.IndexByte data "010") eqn:Ei.
  - apply Z.leb_le in Ei.
    rewrite (stream_lines_newline data err Ei). cbn [load_lines].
    destruct (load_line filter _) as [[f|e]|msg]; cbn; try done.
    apply IH. rewrite string_drop_length. lia.
  - apply Z.leb_gt in Ei.
    unfold stream_lines. cbn [Bufio.rd_data Bufio.rd_err].
    rewrite (read_strings_no_newline data Ei).
    destruct err; try done.
    destruct data as [|c data]; [done|].
    replace (len (String c data) =? 0) with false
      by (symmetry; apply Z.eqb_neq; unfold len; simpl; lia).
    cbn [app load_lines].
    destruct (load_line filter _) as [[f|e]|msg]; cbn; try done.
    destruct turns as [|turns]; [simpl in Hlen; lia|]. done.
Qed.

(** [ReadIPList] loads the lines of its stream in order: the loop always
    reaches the end of the stream. *)
Lemma ReadIPList_lines (r : Bufio.Reader) :
  ReadIPList r =
    finish (Bufio.rd_err r) (load_lines empty_filter (stream_lines r)).
Proof.
  destruct r as [data err]. unfold ReadIPList. cbn [Bufio.rd_data].
  rewrite ReadIPList_loop_lines by lia. done.
Qed.

(** ** The classification of ranges into buckets *)

Lemma BigEndian_Uint16_take2 (ip : IP) (b : list Z) (k : Z) :
  slice_to ip 2 = Ret b ->
  Binary.BigEndian_Uint16 b = Ret k ->
  exists b0 b1 tl, ip = b0 :: b1 :: tl /\ k = Z.lor b1 (Z.shiftl b0 8).
Proof.
  unfold slice_to. destruct ip as [|b0 [|b1 tl]]; simpl; try done.
  intros [= <-]. cbn. intros [= <-]. eauto.
Qed.

Lemma bucket_content_map_append_eq (m : gmap Z (list IPNet)) k v :
  default [] (map_append m k v !! k) = default [] (m !! k) ++ [v].
Proof. unfold map_append. by rewrite lookup_insert_eq. Qed.

Lemma bucket_content_map_append_ne (m : gmap Z (list IPNet)) k k' v :
  k <> k' ->
  default [] (map_append m k v !! k') = default [] (m !! k').
Proof. intros. unfold map_append. by rewrite lookup_insert_ne. Qed.

(** One classification step appends the range to the bucket of its
    prefix length and key, and to no other. *)
Lemma insert_range_content (f f' : IPFilter) (ipnet : IPNet) :
  insert_range f ipnet = Ret f' ->
  exists id, bucket_of ipnet = Some id
    /\ forall id', bucket_content f' id' =
         bucket_content f id' ++ (if bool_decide (id' = id) then [ipnet] else []).
Proof.
  unfold insert_range, bucket_of, prefix_length.
  destruct (Size (ipnet_Mask ipnet)) as [ones bits]. cbn [fst].
  destruct (ones <? 8) eqn:E8.
  - intros [= <-]. exists Coarse. split; [done|].
    intros [| |]; cbn; intros; rewrite ?app_nil_r; done.
  - replace (8 <=? ones) with true by (symmetry; apply Z.leb_le; lia).
    cbn [andb]. destruct (ones <? 16) eqn:E16.
    + unfold index, byte_key.
      destruct (ipnet_IP ipnet !! 0%nat) as [prefix|] eqn:Ek; cbn; [|done].
      intros [= <-]. exists (ByteBucket prefix). split; [done|].
      intros [|k|k]; cbn [bucket_content rest idx1 idx2].
      * by rewrite app_nil_r.
      * destruct (decide (k = prefix)) as [->|Hne].
        -- rewrite bool_decide_eq_true_2 by done.
           apply bucket_content_map_append_eq.
        -- rewrite bool_decide_eq_false_2 by congruence.
           rewrite app_nil_r. by apply bucket_content_map_append_ne.
      * by rewrite app_nil_r.
    + destruct (slice_to (ipnet_IP ipnet) 2) as [b|] eqn:Eb; [|done].
      cbn. destruct (Binary.BigEndian_Uint16 b) as [prefix|] eqn:Ek; [|done].
      cbn. intros [= <-].
      destruct (BigEndian_Uint16_take2 _ _ _ Eb Ek) as (b0 & b1 & tl & Hip & ->).
      exists (WordBucket (Z.lor b1 (Z.shiftl b0 8))). split.
      { unfold word_key. by rewrite Hip. }
      intros [|k|k]; cbn [bucket_content rest idx1 idx2].
      * by rewrite app_nil_r.
      * by rewrite app_nil_r.
      * destruct (decide (k = Z.lor b1 (Z.shiftl b0 8))) as [->|Hne].
        -- rewrite bool_decide_eq_true_2 by done.
           apply bucket_content_map_append_eq.
        -- rewrite bool_decide_eq_false_2 by congruence.
           rewrite app_nil_r. by apply bucket_content_map_append_ne.
Qed.

Lemma insert_range_classifies (f f' : IPFilter) (ranges : list IPNet)
    (ipnet : IPNet) :
  classifies f ranges ->
  insert_range f ipnet = Ret f' ->
  is_Some (bucket_of ipnet) /\ classifies f' (ranges ++ [ipnet]).
Proof.
  intros Hf Hins.
  destruct (insert_range_content _ _ _ Hins) as (id & Hid & Hcontent).
  split; [by eexists|].
  intros id'. rewrite Hcontent, Hf, List.filter_app. f_equal.
  cbn. unfold in_bucket. rewrite Hid.
  destruct (decide (id' = id)) as [->|Hne].
  - by rewrite !bool_decide_eq_true_2.
  - by rewrite !bool_decide_eq_false_2 by congruence.
Qed.

Lemma load_line_inv (f f' : IPFilter) (line : string) :
  load_line f line = Ret (inl f') ->
  exists ipnet, parses_to line ipnet /\ insert_range f ipnet = Ret f'.
Proof.
  unfold load_line, parses_to.
  destruct (ParseLine _) as [[[ipnet|] [err|]]|]; cbn; try done.
  destruct (insert_range f ipnet) as [f''|] eqn:E; cbn; [|done].
  intros [= <-]. eauto.
Qed.

Lemma load_lines_classifies (lines : list string) :
  forall (f f' : IPFilter) (ranges : list IPNet),
    classifies f ranges ->
    load_lines f lines = Ret (inl f') ->
    exists new, Forall2 parses_to lines new
      /\ Forall (fun ipnet => is_Some (bucket_of ipnet)) new
      /\ classifies f' (ranges ++ new).
Proof.
  induction lines as [|line lines IH]; intros f f' ranges Hf; cbn.
  - intros [= <-]. exists []. rewrite app_nil_r. by repeat constructor.
  - destruct (load_line f line) as [[f1|e]|] eqn:E1; cbn; try done.
    intros Hrest.
    destruct (load_line_inv _ _ _ E1) as (ipnet & Hparse & Hins).
    destruct (insert_range_classifies _ _ _ _ Hf Hins) as [Hb Hf1].
    destruct (IH _ _ _ Hf1 Hrest) as (new & Hnew & Hbs & Hf').
    exists (ipnet :: new). rewrite <- app_assoc in Hf'.
    by repeat constructor.
Qed.

Lemma finish_index (err : error) (r : go (IPFilter + error)) (f : IPFilter) :
  finish err r = Ret (Some f, None) -> r = Ret (inl f).
Proof. destruct r as [[f'|e]|], err; cbn; congruence. Qed.

Lemma classifies_empty : classifies empty_filter [].
Proof. by intros [| |]. Qed.

(** C6. Classification invariant: when [ReadIPList] returns an index,
    the ranges parsed from the lines of the stream each have exactly one
    bucket, the one [bucket_of] chooses from the prefix length (coarse
    below 8, keyed by the first address byte from 8 to 15, keyed by the
    first two address bytes from 16 on), and every bucket of the index
    holds exactly the ranges of that bucket. *)
Theorem ReadIPList_classification (r : Bufio.Reader) (f : IPFilter) :
  ReadIPList r = Ret (Some f, None) ->
  exists ranges,
    Forall2 parses_to (stream_lines r) ranges
    /\ Forall (fun ipnet => is_Some (bucket_of ipnet)) ranges
    /\ forall id, bucket_content f id = List.filter (in_bucket id) ranges.
Proof.
  rewrite ReadIPList_lines. intros H%finish_index.
  destruct (load_lines_classifies _ _ _ [] classifies_empty H)
    as (ranges & ? & ? & ?).
  by exists ranges.
Qed.

Lemma ReadIPList_classification_witness :
  ReadIPList Fixtures.three_lines = Ret (Some Fixtures.filter_three, None)
  /\ exists ranges,
       Forall2 parses_to (stream_lines Fixtures.three_lines) ranges
       /\ Forall (fun ipnet => is_Some (bucket_of ipnet)) ranges
       /\ forall id, bucket_content Fixtures.filter_three id
                     = List.filter (in_bucket id) ranges.
Proof.
  split; [vm_compute; reflexivity|].
  apply (ReadIPList_classification Fixtures.three_lines Fixtures.filter_three).
  vm_compute; reflexivity.
Defined.


(** ** Shapes of the values the parsers of package net return *)

Lemma parseIPv4_loop_shape (k : nat) :
  forall (s : string) (p : list Z),
    (length p + k = 4)%nat ->
    parseIPv4_loop k s p = []
    \/ exists a b c d, parseIPv4_loop k s p = IPv4 a b c d.
Proof.
  induction k as [|k IH]; intros s p Hlen; cbn [parseIPv4_loop].
  - destruct (negb (len s =? 0)); [by left|].
    destruct p as [|a [|b [|c [|d [|? ?]]]]]; simpl in Hlen; try lia.
    right. by exists a, b, c, d.
  - destruct (len s =? 0); [by left|].
    set (after_dot := match p with [] => _ | _ => _ end).
    destruct after_dot as [s1|]; [|by left].
    destruct (dtoi s1) as [[n c] ok].
    destruct (negb ok || (255 <? n)); [by left|].
    apply IH. rewrite length_app. simpl. lia.
Qed.

Lemma parseIPv4_shape (s : string) :
  parseIPv4 s = [] \/ exists a b c d, parseIPv4 s = IPv4 a b c d.
Proof. by apply parseIPv4_loop_shape. Qed.

Lemma set_byte_length (ip : list Z) (i v : Z) :
  length (set_byte ip i v) = length ip.
Proof. apply length_insert. Qed.

Lemma shift_up_length (count : nat) :
  forall (j n : Z) (ip : list Z), length (shift_up count j n ip) = length ip.
Proof.
  induction count as [|count IH]; intros; cbn; [done|].
  by rewrite IH, set_byte_length.
Qed.

Lemma clear_down_length (count : nat) :
  forall (j : Z) (ip : list Z), length (clear_down count j ip) = length ip.
Proof.
  induction count as [|count IH]; intros; cbn; [done|].
  by rewrite IH, set_byte_length.
Qed.

Lemma parseIPv6_loop_length (turns : nat) :
  forall (st st' : v6state),
    parseIPv6_loop turns st = Some st' ->
    length (v6_ip st') = length (v6_ip st).
Proof.
  induction turns as [|turns IH]; intros [i s ip ellipsis] st';
    cbn [parseIPv6_loop].
  - destruct (negb (i <? IPv6len)); by intros [= <-].
  - destruct (negb (i <? IPv6len)); [by intros [= <-]|].
    destruct (xtoi s) as [[n c] ok].
    destruct (negb ok || (65535 <? n)); [done|].
    destruct ((c <? len s) && bool_decide (char_at s c = Some "."%char)).
    + destruct ((ellipsis <? 0) && negb (i =? IPv6len - IPv4len)); [done|].
      destruct (IPv6len <? i + IPv4len); [done|].
      destruct (parseIPv4 s); [done|].
      intros [= <-]. cbn. by rewrite !set_byte_length.
    + set (ip' := set_byte (set_byte ip i _) (i + 1) _).
      assert (length ip' = length ip) as Hip'
        by (unfold ip'; by rewrite !set_byte_length).
      destruct (len (string_drop (Z.to_nat c) s) =? 0);
        [by intros [= <-]|].
      destruct (string_drop (Z.to_nat c) s) as [|c0 s1] eqn:Es; [done|].
      destruct (Ascii.ascii_dec c0 ":") as [->|Hne].
      * destruct (len (String ":" s1) =? 1); [done|].
        destruct s1 as [|c1 s2].
        -- intros H%IH. cbn in H |- *. congruence.
        -- destruct (Ascii.ascii_dec c1 ":") as [->|Hne1].
           ++ destruct (0 <=? ellipsis); [done|].
              destruct (len s2 =? 0); [by intros [= <-]|].
              intros H%IH. cbn in H |- *. congruence.
           ++ intros H.
              assert (parseIPv6_loop turns (mkV6 (i + 2) (String c1 s2) ip' ellipsis)
                      = Some st') as H'.
              { revert H. clear -Hne1.
                destruct c1 as [[] [] [] [] [] [] [] []]; try done. }
              apply IH in H'. cbn in H' |- *. congruence.
      * intros H. exfalso. revert H. clear -Hne.
        destruct c0 as [[] [] [] [] [] [] [] []]; try done.
Qed.

Lemma parseIPv6_length (s : string) :
  parseIPv6 s = [] \/ length (parseIPv6 s) = 16%nat.
Proof.
  unfold parseIPv6.
  set (start := match s with String ":" (String ":" s') => _ | _ => _ end).
  assert (length (v6_ip start) = 16%nat) as Hstart.
  { unfold start. destruct s as [|c0 [|c1 s']]; try done;
      destruct c0 as [[] [] [] [] [] [] [] []]; try done;
      destruct c1 as [[] [] [] [] [] [] [] []]; done. }
  destruct ((0 <=? v6_ellipsis start) && (len (v6_s start) =? 0)); [by right|].
  destruct (parseIPv6_loop 8 start) as [[i s' ip ellipsis]|] eqn:E; [|by left].
  apply parseIPv6_loop_length in E. cbn in E. rewrite Hstart in E.
  destruct (negb (len s' =? 0)); [by left|].
  destruct (i <? IPv6len).
  - destruct (ellipsis <? 0); [by left|].
    right. by rewrite clear_down_length, shift_up_length.
  - destruct (0 <=? ellipsis); [by left|by right].
Qed.

Lemma ParseIP_length (s : string) :
  ParseIP s = [] \/ length (ParseIP s) = 16%nat.
Proof.
  unfold ParseIP. destruct (first_dot_or_colon s) as [c|]; [|by left].
  assert (parseIPv4 s = [] \/ length (parseIPv4 s) = 16%nat) as H4.
  { destruct (parseIPv4_shape s) as [->|(a & b & c' & d & ->)]; auto. }
  pose proof (parseIPv6_length s) as H6.
  destruct c as [[] [] [] [] [] [] [] []]; done.
Qed.

Lemma To4_length (ip : list Z) : To4 ip = [] \/ length (To4 ip) = 4%nat.
Proof.
  unfold To4. case_bool_decide; [by right|].
  case_bool_decide as H16; [|by left].
  destruct (_ && _); [|by left].
  right. rewrite length_take, length_drop. lia.
Qed.

Lemma To4_of_4 (ip : list Z) : length ip = 4%nat -> To4 ip = ip.
Proof. intros H. unfold To4. by rewrite bool_decide_eq_true_2. Qed.

Lemma to4_or_self_length (ip : list Z) :
  length ip = 16%nat ->
  length (to4_or_self ip) = 4%nat \/ length (to4_or_self ip) = 16%nat.
Proof.
  intros H. unfold to4_or_self.
  destruct (To4_length ip) as [->|H4]; [by right|].
  destruct (To4 ip); [by right|by left].
Qed.

Lemma CIDRMask_loop_length (l : nat) :
  forall n : Z, length (CIDRMask_loop l n) = l.
Proof.
  induction l as [|l IH]; intros n; cbn; [done|].
  destruct (8 <=? n); cbn; by rewrite IH.
Qed.

Lemma CIDRMask_length (ones bits : Z) :
  bits = 32 \/ bits = 128 ->
  (ones <? 0) = false -> (bits <? ones) = false ->
  length (CIDRMask ones bits) = Z.to_nat (bits / 8).
Proof.
  intros Hbits H0 H1. unfold CIDRMask. rewrite H0, H1. cbn [orb].
  change (8 * IPv4len) with 32. change (8 * IPv6len) with 128.
  destruct Hbits as [-> | ->]; cbn; by rewrite CIDRMask_loop_length.
Qed.

Lemma Mask_16 (ip mask : list Z) :
  length ip = 16%nat -> length mask = 16%nat ->
  Mask ip mask = zip_with Z.land ip mask.
Proof.
  intros Hip Hm. unfold Mask. rewrite Hip, Hm.
  replace (bool_decide (16%nat = 4%nat)) with false by done.
  rewrite andb_false_r. cbn [andb]. cbv iota. rewrite Hm.
  replace (bool_decide (16%nat = 4%nat)) with false by done.
  cbn [andb]. cbv iota. rewrite Hip.
  by replace (bool_decide (16%nat = 16%nat)) with true by done.
Qed.

Lemma Mask_IPv4 (a b c d : Z) (mask : list Z) :
  length mask = 4%nat ->
  Mask (IPv4 a b c d) mask = zip_with Z.land [a; b; c; d] mask.
Proof.
  destruct mask as [|m0 [|m1 [|m2 [|m3 [|? ?]]]]]; try done.
Qed.

(** A network returned by [ParseCIDR] has an address and a mask of 4 bytes
    each, or of 16 bytes each. *)
Lemma ParseCIDR_shape (s : string) (ip : list Z) (ipnet : IPNet) :
  ParseCIDR s = (ip, Some ipnet, None) ->
  (length (ipnet_IP ipnet) = 4%nat /\ length (ipnet_Mask ipnet) = 4%nat)
  \/ (length (ipnet_IP ipnet) = 16%nat /\ length (ipnet_Mask ipnet) = 16%nat).
Proof.
  unfold ParseCIDR.
  destruct (Strings.IndexByte s "/" <? 0); [done|].
  set (addr := string_take _ s). set (mask := string_drop _ s).
  destruct (parseIPv4_shape addr) as [E4|(a & b & c & d & E4)]; rewrite E4.
  - destruct (dtoi mask) as [[n i] ok].
    destruct (bool_decide (parseIPv6 addr = [])) eqn:Enil; [done|].
    apply bool_decide_eq_false in Enil.
    destruct (parseIPv6_length addr) as [?|H16]; [done|].
    cbn [orb]. destruct (negb ok); [done|]. cbn [orb].
    destruct (negb (i =? len mask)); [done|]. cbn [orb].
    destruct (n <? 0) eqn:En0; [done|]. cbn [orb].
    destruct (8 * IPv6len <? n) eqn:En; [done|].
    intros [= _ <-]. cbn. right.
    assert (length (CIDRMask n (8 * IPv6len)) = 16%nat) as Hm
      by (by rewrite CIDRMask_length; auto).
    split; [|done]. rewrite Mask_16 by done.
    by rewrite length_zip_with, Hm, H16.
  - cbn [IPv4 app v4InV6Prefix].
    destruct (dtoi mask) as [[n i] ok].
    cbn [bool_decide decide_rel orb]. cbn [orb].
    rewrite bool_decide_eq_false_2 by done. cbn [orb].
    destruct (negb ok); [done|]. cbn [orb].
    destruct (negb (i =? len mask)); [done|]. cbn [orb].
    destruct (n <? 0) eqn:En0; [done|]. cbn [orb].
    destruct (8 * IPv4len <? n) eqn:En; [done|].
    intros [= _ <-]. cbn [ipnet_IP ipnet_Mask]. left.
    assert (length (CIDRMask n (8 * IPv4len)) = 4%nat) as Hm
      by (by rewrite CIDRMask_length; auto).
    split; [|done].
    change (0 :: 0 :: 0 :: 0 :: 0 :: 0 :: 0 :: 0 :: 0 :: 0 :: 255 :: 255
              :: [a; b; c; d]) with (IPv4 a b c d).
    rewrite Mask_IPv4 by done. by rewrite length_zip_with, Hm.
Qed.

Lemma ParseCIDR_no_error (s : string) (ip : list Z) (o : option IPNet) :
  ParseCIDR s = (ip, o, None) -> is_Some o.
Proof.
  unfold ParseCIDR.
  destruct (Strings.IndexByte s "/" <? 0); [done|].
  destruct (match parseIPv4 _ with [] => _ | _ => _ end) as [iplen ip'].
  destruct (dtoi _) as [[n i] ok].
  destruct (_ || _); [done|]. intros [= _ <-]. by eexists.
Qed.

(** ** Well-formed lines load without failure *)

Lemma is_range_line_parses (line : string) :
  is_range_line line = true ->
  exists ipnet,
    ParseLine line = Ret (Some ipnet, None)
    /\ (length (ipnet_IP ipnet) = 4%nat \/ length (ipnet_IP ipnet) = 16%nat).
Proof.
  unfold is_range_line, ParseLine.
  destruct (ParseCIDR line) as [[ip o] [e|]] eqn:Ecidr.
  - replace (match o with Some _ => _ | None => _ end)
      with (match Strings.Split line " " with
            | a :: m :: _ =>
                negb (bool_decide (ParseIP a = []))
                && negb (bool_decide (ParseIP m = []))
            | _ => false
            end) by (by destruct o).
    destruct (Strings.Split line " ") as [|a [|m tl]]; try done.
    intros [Ha Hm]%andb_true_iff. cbn.
    apply negb_true_iff, bool_decide_eq_false in Ha.
    eexists. split; [done|]. cbn.
    destruct (ParseIP_length a) as [?|H16]; [done|].
    by apply to4_or_self_length.
  - destruct (ParseCIDR_no_error _ _ _ Ecidr) as [ipnet ->].
    intros _. exists ipnet. split; [done|].
    destruct (ParseCIDR_shape _ _ _ Ecidr) as [[? ?]|[? ?]]; auto.
Qed.

Lemma insert_range_total (f : IPFilter) (ipnet : IPNet) :
  (2 <= length (ipnet_IP ipnet))%nat ->
  exists f', insert_range f ipnet = Ret f'.
Proof.
  intros Hlen. unfold insert_range.
  destruct (Size (ipnet_Mask ipnet)) as [ones bits].
  destruct (ipnet_IP ipnet) as [|b0 [|b1 tl]]; simpl in Hlen; try lia.
  destruct (ones <? 8); [by eexists|].
  destruct ((8 <=? ones) && (ones <? 16)); by eexists.
Qed.

Lemma TrimRight_newline (s : string) :
  Strings.TrimRight (s ++ String "010" EmptyString) cutset
  = Strings.TrimRight s cutset.
Proof.
  induction s as [|c s IH]; [done|].
  change (String c s ++ String "010" EmptyString)%string
    with (String c (s ++ String "010" EmptyString))%string.
  cbn [Strings.TrimRight]. by rewrite IH.
Qed.

Lemma Trim_newline (s : string) :
  Strings.Trim (s ++ String "010" EmptyString) cutset = Strings.Trim s cutset.
Proof.
  unfold Strings.Trim. induction s as [|c s IH]; [done|].
  change (String c s ++ String "010" EmptyString)%string
    with (String c (s ++ String "010" EmptyString))%string.
  cbn [Strings.TrimLeft].
  destruct (Strings.in_cutset cutset c); [done|].
  change (String c (s ++ String "010" EmptyString))%string
    with (String c s ++ String "010" EmptyString)%string.
  apply TrimRight_newline.
Qed.

Lemma read_strings_line (line tail : string) :
  Strings.IndexByte line "010" < 0 ->
  read_strings (line ++ String "010" tail)
  = ((line ++ String "010" EmptyString)%string :: fst (read_strings tail),
     snd (read_strings tail)).
Proof.
  induction line as [|c line IH].
  - intros _. change (EmptyString ++ String "010" tail)%string
      with (String "010" tail).
    cbn [read_strings]. by destruct (read_strings tail).
  - change (String c line ++ String "010" tail)%string
      with (String c (line ++ String "010" tail))%string.
    cbn [read_strings Strings.IndexByte].
    destruct (Ascii.eqb c "010") eqn:Ec; [lia|].
    destruct (Strings.IndexByte line "010" <? 0) eqn:E; [|lia].
    intros _. rewrite IH by lia. done.
Qed.

Lemma read_strings_terminated (lines : list string) :
  Forall (fun line => Strings.IndexByte line "010" < 0) lines ->
  read_strings (terminated lines)
  = (map (fun line => (line ++ String "010" EmptyString)%string) lines,
     EmptyString).
Proof.
  induction 1 as [|line lines Hline _ IH]; [done|].
  cbn [terminated map].
  change (String "010" EmptyString ++ terminated lines)%string
    with (String "010" (terminated lines)).
  by rewrite read_strings_line, IH.
Qed.

Lemma stream_lines_terminated (lines : list string) :
  Forall (fun line => Strings.IndexByte line "010" < 0) lines ->
  stream_lines (Bufio.mkReader (terminated lines) EOF)
  = map (fun line => (line ++ String "010" EmptyString)%string) lines.
Proof.
  intros H. unfold stream_lines. cbn. by rewrite read_strings_terminated.
Qed.

Lemma load_lines_total (lines : list string) :
  forall f : IPFilter,
    Forall (fun line => is_range_line (Strings.Trim line cutset) = true) lines ->
    exists f', load_lines f lines = Ret (inl f').
Proof.
  induction lines as [|line lines IH]; intros f Hlines; [by eexists|].
  inversion_clear Hlines as [|? ? Hline Hrest].
  destruct (is_range_line_parses _ Hline) as (ipnet & Hparse & Hlen).
  destruct (insert_range_total f ipnet) as [f1 Hf1]; [lia|].
  destruct (IH f1 Hrest) as [f' Hf'].
  exists f'. cbn [load_lines]. unfold load_line. rewrite Hparse. cbn.
  rewrite Hf1. cbn. done.
Qed.

Lemma parses_to_newline (line : string) (ipnet : IPNet) :
  parses_to (line ++ String "010" EmptyString) ipnet <-> parses_to line ipnet.
Proof. unfold parses_to. by rewrite Trim_newline. Qed.

(** C9, amended. Clean termination at end of stream: a stream of
    well-formed range lines, each followed by a line terminator, is
    loaded successfully; the empty read that follows the final
    terminator ends the loop, and the index returned holds exactly the
    ranges of those lines, each in its bucket. *)
Theorem ReadIPList_trailing_terminator (lines : list string) :
  Forall (fun line =>
            Strings.IndexByte line "010" < 0
            /\ is_range_line (Strings.Trim line cutset) = true) lines ->
  exists f ranges,
    ReadIPList (Bufio.mkReader (terminated lines) EOF) = Ret (Some f, None)
    /\ Forall2 parses_to lines ranges
    /\ Forall (fun ipnet => is_Some (bucket_of ipnet)) ranges
    /\ classifies f ranges.
Proof.
  intros Hlines.
  assert (Forall (fun line => Strings.IndexByte line "010" < 0) lines) as Hnl
    by (eapply Forall_impl; [exact Hlines|]; cbn; tauto).
  assert (Forall (fun line => is_range_line (Strings.Trim line cutset) = true)
            (map (fun line => (line ++ String "010" EmptyString)%string) lines))
    as Hwf.
  { apply Forall_fmap. eapply Forall_impl; [exact Hlines|].
    unfold compose. cbn. intros line [_ H]. by rewrite Trim_newline. }
  rewrite ReadIPList_lines, stream_lines_terminated by done. cbn [Bufio.rd_err].
  destruct (load_lines_total _ empty_filter Hwf) as [f Hf].
  destruct (load_lines_classifies _ _ _ [] classifies_empty Hf)
    as (ranges & Hparse & Hbuckets & Hclass).
  exists f, ranges. rewrite Hf. repeat split; try done.
  apply (Forall2_fmap_l
           (fun line => (line ++ String "010" EmptyString)%string)) in Hparse.
  eapply Forall2_impl; [exact Hparse|].
  intros line ipnet. apply parses_to_newline.
Qed.

Lemma ReadIPList_trailing_terminator_witness :
  let lines := ["10.0.0.0/8"; "1.2.3.4 255.255.255.255"]%string in
  Forall (fun line =>
            Strings.IndexByte line "010" < 0
            /\ is_range_line (Strings.Trim line cutset) = true) lines
  /\ exists f ranges,
       ReadIPList (Bufio.mkReader (terminated lines) EOF) = Ret (Some f, None)
       /\ Forall2 parses_to lines ranges
       /\ Forall (fun ipnet => is_Some (bucket_of ipnet)) ranges
       /\ classifies f ranges.
Proof.
  intros lines.
  assert (Forall (fun line =>
                    Strings.IndexByte line "010" < 0
                    /\ is_range_line (Strings.Trim line cutset) = true) lines)
    as Hlines.
  { repeat constructor; vm_compute; reflexivity. }
  split; [exact Hlines|].
  apply (ReadIPList_trailing_terminator lines Hlines).
Defined.

(** No line is skipped: after a well-formed line, an empty last line
    (two terminators at the end of the stream) or a last line of one
    space is handed to [ParseLine] as the empty string, which has no
    second token. *)
Lemma ReadIPList_blank_last_line :
  ReadIPList (Bufio.mkReader ("10.0.0.0/8" ++ Fixtures.nl ++ Fixtures.nl) EOF)
  = Panic "index out of range"
  /\ ReadIPList (Bufio.mkReader ("10.0.0.0/8" ++ Fixtures.nl ++ " ") EOF)
     = Panic "index out of range"
  /\ load_line Fixtures.filter_ten Fixtures.nl = Panic "index out of range".
Proof. repeat split; vm_compute; reflexivity. Qed.

(** C9, as stated, fails: a blank trailing line, one that [strings.Trim]
    reduces to the empty string, is not a clean terminator.  On the
    stream of the line ["10.0.0.0/8"], its terminator and an empty last
    line with its own terminator, [ReadIPList] returns no index. *)
Lemma ReadIPList_blank_last_line_counterexample :
  ~ (forall (lines : list string) (blank : string),
        Forall (fun line =>
                  Strings.IndexByte line "010" < 0
                  /\ is_range_line (Strings.Trim line cutset) = true) lines ->
        Strings.Trim blank cutset = EmptyString ->
        exists f ranges,
          ReadIPList (Bufio.mkReader (terminated lines ++ blank) EOF)
          = Ret (Some f, None)
          /\ Forall2 parses_to lines ranges
          /\ Forall (fun ipnet => is_Some (bucket_of ipnet)) ranges
          /\ classifies f ranges).
Proof.
  intros H.
  destruct (H ["10.0.0.0/8"%string] Fixtures.nl) as (f & ranges & Hread & _).
  - repeat constructor; vm_compute; reflexivity.
  - vm_compute; reflexivity.
  - vm_compute in Hread. discriminate.
Qed.


Lemma string_app_assoc (a b c : string) :
  ((a ++ b) ++ c = a ++ (b ++ c))%string.
Proof.
  induction a as [|x a IH]; [done|].
  change (String x ((a ++ b) ++ c) = String x (a ++ (b ++ c)))%string.
  by rewrite IH.
Qed.

Lemma read_strings_terminated_then (lines : list string) (last : string) :
  Forall (fun line => Strings.IndexByte line "010" < 0) lines ->
  read_strings (terminated lines ++ last)
  = (map (fun line => (line ++ String "010" EmptyString)%string) lines
       ++ fst (read_strings last),
     snd (read_strings last)).
Proof.
  induction 1 as [|line lines Hline _ IH].
  - change (terminated [] ++ last)%string with last.
    by destruct (read_strings last).
  - cbn [terminated map].
    rewrite string_app_assoc.
    change ((String "010" EmptyString ++ terminated lines) ++ last)%string
      with (String "010" (terminated lines ++ last)).
    by rewrite read_strings_line, IH.
Qed.

Lemma load_lines_app (lines lines' : list string) :
  forall f : IPFilter,
    load_lines f (lines ++ lines')
    = (r ← load_lines f lines;
       match r with
       | inl f' => load_lines f' lines'
       | inr e => mret (inr e)
       end).
Proof.
  induction lines as [|line lines IH]; intros f; [done|].
  cbn [app load_lines].
  destruct (load_line f line) as [[f1|e]|]; cbn; [apply IH|done|done].
Qed.

Lemma load_line_newline (f : IPFilter) (line : string) :
  load_line f (line ++ String "010" EmptyString) = load_line f line.
Proof. unfold load_line. by rewrite Trim_newline. Qed.

(** X12. The terminator of the last line is optional: with or without
    it, [ReadIPList] returns the same result. *)
Lemma ReadIPList_final_terminator (lines : list string) (last : string) :
  Forall (fun line => Strings.IndexByte line "010" < 0) lines ->
  Strings.IndexByte last "010" < 0 ->
  last <> EmptyString ->
  ReadIPList (Bufio.mkReader
                (terminated lines ++ last ++ String "010" EmptyString) EOF)
  = ReadIPList (Bufio.mkReader (terminated lines ++ last) EOF).
Proof.
  intros Hlines Hlast Hne. rewrite !ReadIPList_lines.
  unfold stream_lines. cbn [Bufio.rd_data Bufio.rd_err].
  rewrite !read_strings_terminated_then by done.
  rewrite (read_strings_no_newline last Hlast).
  rewrite (read_strings_line last EmptyString Hlast). cbn [fst snd read_strings].
  destruct last as [|c last]; [done|].
  rewrite app_nil_r, !load_lines_app. cbn [load_lines].
  destruct (load_lines empty_filter _) as [[f|e]|]; cbn [mbind go_bind];
    [by rewrite load_line_newline|done|done].
Qed.

Lemma ReadIPList_final_terminator_witness :
  Forall (fun line => Strings.IndexByte line "010" < 0) ["10.0.0.0/8"%string]
  /\ Strings.IndexByte "1.2.3.4/32" "010" < 0
  /\ "1.2.3.4/32"%string <> EmptyString
  /\ ReadIPList (Bufio.mkReader
                   (terminated ["10.0.0.0/8"%string] ++ "1.2.3.4/32"
                      ++ String "010" EmptyString) EOF)
     = ReadIPList (Bufio.mkReader
                     (terminated ["10.0.0.0/8"%string] ++ "1.2.3.4/32") EOF).
Proof.
  assert (Forall (fun line => Strings.IndexByte line "010" < 0)
            ["10.0.0.0/8"%string]) as Hlines
    by (repeat constructor; vm_compute; reflexivity).
  assert (Strings.IndexByte "1.2.3.4/32" "010" < 0) as Hlast
    by (vm_compute; reflexivity).
  assert ("1.2.3.4/32"%string <> EmptyString) as Hne by discriminate.
  split; [exact Hlines|]. split; [exact Hlast|]. split; [exact Hne|].
  exact (ReadIPList_final_terminator _ _ Hlines Hlast Hne).
Defined.

(** ** The routing dialer *)

(** C10. Pass-through fast path: with no filter pair registered, [Dial]
    makes exactly one call, to the default dialer with the network and
    the address it was given, and returns its result; the resolver is
    not called and the address is not split, whatever the address is. *)
Theorem Dial_pass_through (fd : FilteredDialer) (network address : string) :
  fps fd = [] ->
  Dial fd network address
  = ([EvDial (dialer_name (fd_dialer fd)) network address],
     Ret (dialer_Dial (fd_dialer fd) network address)).
Proof.
  intros Hfps. unfold Dial. rewrite Hfps.
  by rewrite bool_decide_eq_true_2.
Qed.

Lemma Dial_pass_through_witness :
  let fd := NewFilteredDialer Fixtures.default_dialer Fixtures.failing_resolver in
  fps fd = []
  /\ SplitHostPort "no-port"
     = (EmptyString, EmptyString,
        Some (AddrError "missing port in address" "no-port"))
  /\ Dial fd "tcp" "no-port"
     = ([EvDial "default" "tcp" "no-port"], Ret (Some 0%nat, None)).
Proof.
  intros fd. split; [reflexivity|]. split; [vm_compute; reflexivity|].
  exact (Dial_pass_through fd "tcp" "no-port" eq_refl).
Defined.

Section Dialing.

Variables network address : string.

Lemma try_addr_miss (fp : FilterPair) (addr : IP) :
  filter_Contain (fp_filter fp) addr = Ret false ->
  try_addr network address fp addr = ([], Ret None).
Proof. intros H. unfold try_addr. by rewrite H. Qed.

Lemma try_addr_hit (fp : FilterPair) (addr : IP) :
  filter_Contain (fp_filter fp) addr = Ret true ->
  try_addr network address fp addr
  = ([EvDial (dialer_name (fp_dialer fp)) network address],
     Ret (Some (dialer_Dial (fp_dialer fp) network address))).
Proof. intros H. unfold try_addr. by rewrite H. Qed.

Lemma try_pair_miss (fp : FilterPair) (addrs : list IP) :
  Forall (fun addr => filter_Contain (fp_filter fp) addr = Ret false) addrs ->
  try_pair network address addrs fp = ([], Ret None).
Proof.
  unfold try_pair. induction 1 as [|addr addrs Hmiss _ IH]; [done|].
  cbn [for_range]. rewrite try_addr_miss by done. cbn. by rewrite IH.
Qed.

Lemma try_pair_hit (fp : FilterPair) (tried untried : list IP) (addr : IP) :
  Forall (fun addr => filter_Contain (fp_filter fp) addr = Ret false) tried ->
  filter_Contain (fp_filter fp) addr = Ret true ->
  try_pair network address (tried ++ addr :: untried) fp
  = ([EvDial (dialer_name (fp_dialer fp)) network address],
     Ret (Some (dialer_Dial (fp_dialer fp) network address))).
Proof.
  unfold try_pair. intros Htried Hhit.
  induction Htried as [|a tried Hmiss _ IH]; cbn [app for_range].
  - by rewrite try_addr_hit.
  - rewrite try_addr_miss by done. cbn. by rewrite IH.
Qed.

Lemma for_range_pairs_miss (pairs : list FilterPair) (addrs : list IP) :
  Forall (fun fp =>
            Forall (fun addr => filter_Contain (fp_filter fp) addr = Ret false)
                   addrs) pairs ->
  for_range pairs (try_pair network address addrs) = ([], Ret None).
Proof.
  induction 1 as [|fp pairs Hmiss _ IH]; [done|].
  cbn [for_range]. rewrite try_pair_miss by done. cbn. by rewrite IH.
Qed.

Lemma for_range_pairs_hit (before after : list FilterPair) (fp : FilterPair)
    (tried untried : list IP) (addr : IP) :
  Forall (fun fp =>
            Forall (fun addr => filter_Contain (fp_filter fp) addr = Ret false)
                   (tried ++ addr :: untried)) before ->
  Forall (fun addr => filter_Contain (fp_filter fp) addr = Ret false) tried ->
  filter_Contain (fp_filter fp) addr = Ret true ->
  for_range (before ++ fp :: after)
            (try_pair network address (tried ++ addr :: untried))
  = ([EvDial (dialer_name (fp_dialer fp)) network address],
     Ret (Some (dialer_Dial (fp_dialer fp) network address))).
Proof.
  intros Hbefore Htried Hhit.
  induction Hbefore as [|p before Hmiss _ IH]; cbn [app for_range].
  - by rewrite try_pair_hit.
  - rewrite try_pair_miss by done. cbn. by rewrite IH.
Qed.

End Dialing.

(** What [Dial] does once the address is split and the candidate
    addresses are known. *)
Lemma Dial_candidates (fd : FilteredDialer) (network address : string)
    (hostname port : string) (lookups : list event) (addrs : list IP) :
  fps fd <> [] ->
  SplitHostPort address = (hostname, port, None) ->
  Getaddrs (fd_Resolver fd) hostname = (lookups, Ret (Some addrs)) ->
  Dial fd network address
  = ((lookups, Ret addrs) ≫= fun addrs =>
       r ← for_range (fps fd) (try_pair network address addrs);
       match r with
       | Some res => mret res
       | None => call_Dial (fd_dialer fd) network address
       end).
Proof.
  intros Hfps Hsplit Haddrs. unfold Dial.
  rewrite bool_decide_eq_false_2 by (by destruct (fps fd)).
  rewrite Hsplit, Haddrs. done.
Qed.

(** C2. Registration-order precedence with short-circuit: once the
    address is split and resolved to the candidates [addrs], the first
    pair in registration order whose index contains a candidate (the
    earlier pairs containing none, and the earlier candidates not being
    contained) receives the dial and its result is returned, whatever
    the later pairs and the later candidates are; when no pair contains a
    candidate the default dialer is called. *)
Theorem Dial_registration_order (fd : FilteredDialer)
    (network address hostname port : string)
    (lookups : list event) (addrs : list IP) :
  fps fd <> [] ->
  SplitHostPort address = (hostname, port, None) ->
  Getaddrs (fd_Resolver fd) hostname = (lookups, Ret (Some addrs)) ->
  (forall before fp after tried addr untried,
      fps fd = before ++ fp :: after ->
      addrs = tried ++ addr :: untried ->
      Forall (fun p =>
                Forall (fun a => filter_Contain (fp_filter p) a = Ret false)
                       addrs) before ->
      Forall (fun a => filter_Contain (fp_filter fp) a = Ret false) tried ->
      filter_Contain (fp_filter fp) addr = Ret true ->
      Dial fd network address
      = (lookups ++ [EvDial (dialer_name (fp_dialer fp)) network address],
         Ret (dialer_Dial (fp_dialer fp) network address)))
  /\ (Forall (fun p =>
                Forall (fun a => filter_Contain (fp_filter p) a = Ret false)
                       addrs) (fps fd) ->
      Dial fd network address
      = (lookups ++ [EvDial (dialer_name (fd_dialer fd)) network address],
         Ret (dialer_Dial (fd_dialer fd) network address))).
Proof.
  intros Hfps Hsplit Haddrs.
  rewrite (Dial_candidates _ _ _ _ _ _ _ Hfps Hsplit Haddrs). split.
  - intros before fp after tried addr untried -> -> Hbefore Htried Hhit.
    cbn. by rewrite for_range_pairs_hit.
  - intros Hmiss. cbn. by rewrite for_range_pairs_miss.
Qed.

Lemma Dial_registration_order_witness :
  let fd := Fixtures.two_pairs (Fixtures.constant_resolver (Some [[10; 0; 0; 5]])) in
  fps fd <> []
  /\ SplitHostPort "blocked.example:443"
     = ("blocked.example", "443", None)%string
  /\ Getaddrs (fd_Resolver fd) "blocked.example"
     = ([EvLookupIP "blocked.example"], Ret (Some [[10; 0; 0; 5]]))
  /\ Dial fd "tcp" "blocked.example:443"
     = ([EvLookupIP "blocked.example";
         EvDial "first" "tcp" "blocked.example:443"],
        Ret (Some 1%nat, None)).
Proof.
  intros fd.
  assert (fps fd <> []) as Hfps by (vm_compute; discriminate).
  assert (SplitHostPort "blocked.example:443"
          = ("blocked.example", "443", None)%string) as Hsplit
    by (vm_compute; reflexivity).
  assert (Getaddrs (fd_Resolver fd) "blocked.example"
          = ([EvLookupIP "blocked.example"], Ret (Some [[10; 0; 0; 5]])))
    as Haddrs by (vm_compute; reflexivity).
  split; [exact Hfps|]. split; [exact Hsplit|]. split; [exact Haddrs|].
  destruct (Dial_registration_order fd "tcp" "blocked.example:443"
              "blocked.example" "443" _ _ Hfps Hsplit Haddrs) as [Hhit _].
  apply (Hhit [] (mkFilterPair Fixtures.first_dialer (Some Fixtures.filter_ten))
              [mkFilterPair Fixtures.second_dialer (Some Fixtures.filter_ten)]
              [] [10; 0; 0; 5] []).
  - reflexivity.
  - reflexivity.
  - constructor.
  - constructor.
  - vm_compute; reflexivity.
Defined.


(** When the candidate slice is [nil], [Dial] fails with
    [ErrDNSNotFound] and calls no dialer. *)
Lemma Dial_nil_candidates (fd : FilteredDialer) (network address : string)
    (hostname port : string) (lookups : list event) :
  fps fd <> [] ->
  SplitHostPort address = (hostname, port, None) ->
  Getaddrs (fd_Resolver fd) hostname = (lookups, Ret None) ->
  Dial fd network address = (lookups, Ret (None, Some ErrDNSNotFound)).
Proof.
  intros Hfps Hsplit Haddrs. unfold Dial.
  rewrite bool_decide_eq_false_2 by (by destruct (fps fd)).
  rewrite Hsplit, Haddrs. cbn. by rewrite app_nil_r.
Qed.

(** [Getaddrs] never calls a dialer. *)
Lemma Getaddrs_events (resolver : Resolver) (hostname : string) :
  fst (Getaddrs resolver hostname) = []
  \/ fst (Getaddrs resolver hostname) = [EvLookupIP hostname].
Proof.
  unfold Getaddrs. destruct (ParseIP hostname); [right|left; done].
  cbn. by destruct (LookupIP resolver hostname).
Qed.

(** When the candidate slice is empty without being [nil], no pair is
    tried and the default dialer is called. *)
Lemma Dial_empty_candidates (fd : FilteredDialer) (network address : string)
    (hostname port : string) (lookups : list event) :
  fps fd <> [] ->
  SplitHostPort address = (hostname, port, None) ->
  Getaddrs (fd_Resolver fd) hostname = (lookups, Ret (Some [])) ->
  Dial fd network address
  = (lookups ++ [EvDial (dialer_name (fd_dialer fd)) network address],
     Ret (dialer_Dial (fd_dialer fd) network address)).
Proof.
  intros Hfps Hsplit Haddrs.
  rewrite (Dial_candidates _ _ _ _ _ _ _ Hfps Hsplit Haddrs).
  cbn. rewrite for_range_pairs_miss; [done|].
  apply Forall_forall. intros ? _. constructor.
Qed.

(** ** The parser of range lines *)

(** [ParseLine] returns no error, whatever the line: it returns a range
    or panics. *)
Lemma ParseLine_no_error (line : string) (ipnet : option IPNet)
    (err : option error) :
  ParseLine line = Ret (ipnet, err) -> err = None /\ is_Some ipnet.
Proof.
  unfold ParseLine. destruct (ParseCIDR line) as [[ip o] [e|]] eqn:Ecidr.
  - destruct (index (Strings.Split line " ") 0) as [a0|]; cbn; [|done].
    destruct (index (Strings.Split line " ") 1) as [a1|]; cbn; [|done].
    intros [= <- <-]. split; [done|by eexists].
  - cbn. intros [= <- <-]. split; [done|].
    by eapply ParseCIDR_no_error.
Qed.

(** A line that is not in CIDR form and has no space makes [ParseLine]
    panic. *)
Lemma ParseLine_single_token (line : string) :
  snd (ParseCIDR line) <> None ->
  Strings.IndexByte line " " < 0 ->
  ParseLine line = Panic "index out of range".
Proof.
  intros Hcidr Hspace. unfold ParseLine.
  destruct (ParseCIDR line) as [[ip o] [e|]]; [|done].
  assert (Strings.Split line " " = [line]) as ->; [|done].
  clear Hcidr. induction line as [|c line IH]; [done|].
  cbn in Hspace |- *. destruct (Ascii.eqb c " "); [lia|].
  destruct (Strings.IndexByte line " " <? 0) eqn:E; [|lia].
  rewrite IH by lia. done.
Qed.

(** C4. Parser failure contract, as the code has it: the line ["foo"],
    which is in neither form and has no second token, makes [ParseLine]
    panic; the line ["foo bar"], whose tokens do not parse as addresses,
    is accepted and gives the range without address and mask; neither
    returns an error. *)
Theorem ParseLine_malformed_lines :
  is_range_line "foo" = false
  /\ ParseLine "foo" = Panic "index out of range"
  /\ is_range_line "foo bar" = false
  /\ ParseLine "foo bar" = Ret (Some Fixtures.nil_range, None).
Proof. vm_compute. done. Qed.

(** The fallback form of [ParseLine] stores an IPv4 address in its
    4-byte form. *)
Lemma ParseLine_fallback_normalised (line : string) (ipnet : IPNet) :
  snd (ParseCIDR line) <> None ->
  ParseLine line = Ret (Some ipnet, None) ->
  To4 (ipnet_IP ipnet) = [] \/ length (ipnet_IP ipnet) = 4%nat.
Proof.
  intros Hcidr. unfold ParseLine.
  destruct (ParseCIDR line) as [[ip o] [e|]]; [|done].
  destruct (index (Strings.Split line " ") 0) as [a0|]; cbn; [|done].
  destruct (index (Strings.Split line " ") 1) as [a1|]; cbn; [|done].
  intros [= <-]. cbn. unfold to4_or_self.
  destruct (To4_length (ParseIP a0)) as [E|E].
  - rewrite E. by left.
  - destruct (To4 (ParseIP a0)) eqn:E4; [done|]. by right.
Qed.

(** The CIDR form stores an address written in dotted decimal form in
    its 4-byte form. *)
Lemma ParseCIDR_dotted_normalised (line : string) (ip : list Z)
    (ipnet : IPNet) :
  ParseCIDR line = (ip, Some ipnet, None) ->
  parseIPv4 (string_take (Z.to_nat (Strings.IndexByte line "/")) line) <> [] ->
  length (ipnet_IP ipnet) = 4%nat.
Proof.
  unfold ParseCIDR.
  destruct (Strings.IndexByte line "/" <? 0); [done|].
  set (addr := string_take _ line). set (mask := string_drop _ line).
  destruct (parseIPv4_shape addr) as [E4|(a & b & c & d & E4)];
    rewrite E4; [done|].
  cbn [IPv4 app v4InV6Prefix].
  destruct (dtoi mask) as [[n i] ok].
  destruct (_ || _ || _ || (n <? 0)) eqn:E1; [done|].
  apply orb_false_iff in E1 as [_ En0]. cbn [orb].
  destruct (8 * IPv4len <? n) eqn:En; [done|].
  intros [= _ <-] _. cbn [ipnet_IP].
  change (0 :: 0 :: 0 :: 0 :: 0 :: 0 :: 0 :: 0 :: 0 :: 0 :: 255 :: 255
            :: [a; b; c; d]) with (IPv4 a b c d).
  assert (length (CIDRMask n (8 * IPv4len)) = 4%nat) as Hm
    by (by rewrite CIDRMask_length; auto).
  rewrite Mask_IPv4 by done. by rewrite length_zip_with, Hm.
Qed.

(** C7. IPv4 normalisation before storage, as the code has it: the CIDR
    line ["::ffff:10.0.0.0/104"] names the IPv4 network 10.0.0.0/8 in
    IPv4-mapped form and is stored with its 16-byte base address, while
    the same address in the two-token form is stored in 4 bytes. *)
Theorem ParseLine_mapped_cidr_not_normalised :
  ParseLine "::ffff:10.0.0.0/104" = Ret (Some Fixtures.mapped_ten, None)
  /\ To4 (ipnet_IP Fixtures.mapped_ten) = [10; 0; 0; 0]
  /\ length (ipnet_IP Fixtures.mapped_ten) = 16%nat
  /\ ParseLine "::ffff:10.0.0.0 255.0.0.0" = Ret (Some Fixtures.ten_slash_8, None).
Proof. vm_compute. done. Qed.

(** ** The list loader and errors *)

Lemma load_line_no_error (f : IPFilter) (line : string) (e : error) :
  load_line f line <> Ret (inr e).
Proof.
  unfold load_line.
  destruct (ParseLine _) as [[ipnet err]|] eqn:E; cbn; [|done].
  destruct (ParseLine_no_error _ _ _ E) as [-> [n ->]].
  by destruct (insert_range f n).
Qed.

Lemma load_lines_no_error (lines : list string) :
  forall (f : IPFilter) (e : error), load_lines f lines <> Ret (inr e).
Proof.
  induction lines as [|line lines IH]; intros f e; cbn; [done|].
  pose proof (load_line_no_error f line) as Hline.
  destruct (load_line f line) as [[f1|e1]|]; cbn; [apply IH| |done].
  by destruct (Hline e1).
Qed.

(** [ReadIPList] returns no index together with an error, and the only
    error it returns is the one that ended the stream: no line makes it
    return an error. *)
Lemma ReadIPList_error (r : Bufio.Reader) (f : option IPFilter) (e : error) :
  ReadIPList r = Ret (f, Some e) -> f = None /\ e = Bufio.rd_err r /\ e <> EOF.
Proof.
  rewrite ReadIPList_lines.
  pose proof (load_lines_no_error (stream_lines r) empty_filter) as Hno.
  destruct (load_lines empty_filter (stream_lines r)) as [[f1|e1]|]; cbn.
  - destruct (Bufio.rd_err r); by intros [= <- <-].
  - by destruct (Hno e1).
  - done.
Qed.

(** C8. Abort on first bad line, as the code has it: the stream whose
    first line is the malformed ["foo bar"] is loaded without error, the
    line being kept as a range without address and mask in the coarse
    bucket; the stream whose first line is the malformed ["foo"] makes
    [ReadIPList] panic. *)
Theorem ReadIPList_malformed_line :
  ReadIPList (Bufio.mkReader
                ("foo bar" ++ Fixtures.nl ++ "10.0.0.0/8" ++ Fixtures.nl) EOF)
  = Ret (Some (mkIPFilter [Fixtures.nil_range]
                          {[ 10 := [Fixtures.ten_slash_8] ]} ∅), None)
  /\ ReadIPList (Bufio.mkReader
                   ("foo" ++ Fixtures.nl ++ "10.0.0.0/8" ++ Fixtures.nl) EOF)
     = Panic "index out of range".
Proof. vm_compute. done. Qed.

(** ** The index and the linear scan *)

(** What the missing normalisation of the CIDR form does to the index:
    the index built from the single line ["::ffff:10.0.0.0/104"] holds
    the range under the word key 0, so [Contain] does not find 10.1.2.3,
    which a linear scan of the loaded ranges finds. *)
Lemma Contain_mapped_cidr :
  ReadIPList (Bufio.mkReader ("::ffff:10.0.0.0/104" ++ Fixtures.nl) EOF)
  = Ret (Some Fixtures.filter_mapped_ten, None)
  /\ Forall2 parses_to ["::ffff:10.0.0.0/104"%string] [Fixtures.mapped_ten]
  /\ Contain Fixtures.filter_mapped_ten [10; 1; 2; 3] = Ret false
  /\ linear_scan [Fixtures.mapped_ten] [10; 1; 2; 3] = true.
Proof.
  split; [by vm_compute|]. split; [|by vm_compute].
  apply Forall2_cons. split; [by vm_compute|constructor].
Qed.

(** ** Loading a filter into the dialer *)

(** [LoadFilter] appends one pair whenever it returns, with or without
    an error; with an error the pair has no index. *)
Lemma LoadFilter_appends (fs : OS.FileSystem) (fd fd' : FilteredDialer)
    (dialer : Dialer) (filename : string) (err : option error) :
  LoadFilter fs fd dialer filename = Ret (fd', err) ->
  exists filter,
    fps fd' = fps fd ++ [mkFilterPair dialer filter]
    /\ (err <> None -> filter = None).
Proof.
  unfold LoadFilter.
  destruct (ReadIPListFile fs filename) as [[filter e]|] eqn:E; cbn; [|done].
  intros [= <- <-]. exists filter. split; [done|].
  intros He. destruct e as [e|]; [|done]. revert E. unfold ReadIPListFile.
  destruct (OS.Open fs filename) as [f|e0]; [|by intros [= <- _]].
  destruct (Strings.HasSuffix filename ".gz").
  - destruct (OS.gzip_NewReader fs f) as [f'|e1]; [|by intros [= <- _]].
    by intros [? _]%ReadIPList_error.
  - by intros [? _]%ReadIPList_error.
Qed.

(** C3. Load-error atomicity, as the code has it: when the file cannot
    be opened [LoadFilter] returns the error and still appends a pair,
    whose index is nil; a later [Dial] that reaches the pair panics. *)
Theorem LoadFilter_failure_appends_pair :
  let fd := NewFilteredDialer Fixtures.default_dialer
              (Fixtures.constant_resolver (Some [[8; 8; 8; 8]])) in
  let fd' := mkFilteredDialer (fd_dialer fd) (fd_Resolver fd)
               [mkFilterPair Fixtures.first_dialer None] in
  LoadFilter Fixtures.no_files fd Fixtures.first_dialer "missing.txt"
  = Ret (fd', Some (OtherError "no such file or directory"))
  /\ fps fd = []
  /\ Dial fd' "tcp" "example.com:80"
     = ([EvLookupIP "example.com"], Panic "nil pointer dereference").
Proof. vm_compute. done. Qed.

(** C5. Empty-resolution hard failure, as the code has it: when the
    resolver returns an empty slice that is not nil, without error,
    [Dial] does not fail with [ErrDNSNotFound]: it calls the default
    dialer and returns its result. A nil slice gives [ErrDNSNotFound]. *)
Theorem Dial_empty_resolution :
  Dial (Fixtures.two_pairs (Fixtures.constant_resolver (Some [])))
       "tcp" "blocked.example:443"
  = ([EvLookupIP "blocked.example";
      EvDial "default" "tcp" "blocked.example:443"],
     Ret (Some 0%nat, None))
  /\ Dial (Fixtures.two_pairs (Fixtures.constant_resolver None))
          "tcp" "blocked.example:443"
     = ([EvLookupIP "blocked.example"], Ret (None, Some ErrDNSNotFound)).
Proof. vm_compute. done. Qed.

(** ** Where the index agrees with the linear scan *)

Lemma ListConatins_linear_scan (iplist : list IPNet) (ip : IP) :
  ListConatins iplist ip = linear_scan iplist ip.
Proof.
  unfold linear_scan. induction iplist as [|ipnet iplist IH]; [done|].
  cbn. rewrite IH. by destruct (Contains ipnet ip).
Qed.

Lemma to4_or_self_fixed (x : IP) :
  length x = 4%nat \/ To4 x = [] -> to4_or_self x = x.
Proof.
  unfold to4_or_self. intros [H4| ->]; [|done].
  rewrite To4_of_4 by done. by destruct x.
Qed.

(** The address [Contain] and [Contains] work on: 4 bytes, or 16 bytes
    that are not an IPv4 address. *)
Lemma to4_or_self_normal (ip : IP) :
  valid_ip ip ->
  (length (to4_or_self ip) = 4%nat
   \/ (length (to4_or_self ip) = 16%nat /\ To4 (to4_or_self ip) = []))
  /\ Forall is_byte (to4_or_self ip).
Proof.
  intros [Hlen Hbytes]. unfold to4_or_self.
  destruct (To4 ip) as [|b tl] eqn:E4.
  - split; [|done]. destruct Hlen as [H4|H16]; [by left|by right].
  - rewrite <- E4. split.
    + destruct (To4_length ip) as [H|H]; [congruence|by left].
    + unfold To4. case_bool_decide; [done|].
      destruct (_ && _); [|constructor].
      by apply Forall_take, Forall_drop.
Qed.

Lemma Contains_to4_or_self (ipnet : IPNet) (ip : IP) :
  valid_ip ip -> Contains ipnet (to4_or_self ip) = Contains ipnet ip.
Proof.
  intros Hip. unfold Contains.
  destruct (networkNumberAndMask ipnet) as [nn m].
  destruct (to4_or_self_normal ip Hip) as [[H4|[_ H16]] _];
    by rewrite (to4_or_self_fixed (to4_or_self ip)) by auto.
Qed.

Lemma land_255 (b : Z) : is_byte b -> Z.land b 255 = b.
Proof.
  intros Hb. change 255 with (Z.ones 8).
  rewrite Z.land_ones by lia. apply Z.mod_small. exact Hb.
Qed.

Lemma leading_ones_shift (bits : nat) :
  forall n v : Z,
    leading_ones bits n v
    = (n + fst (leading_ones bits 0 v), snd (leading_ones bits 0 v)).
Proof.
  induction bits as [|bits IH]; intros n v; cbn [leading_ones].
  - cbn. f_equal. lia.
  - destruct (negb (Z.land v 128 =? 0)).
    + rewrite (IH (n + 1)), (IH (0 + 1)). cbn. f_equal. lia.
    + cbn. f_equal. lia.
Qed.

Lemma leading_ones_below_8 (v : Z) :
  is_byte v -> v <> 255 -> fst (leading_ones 8 0 v) <= 7.
Proof.
  intros Hv Hne.
  assert (forallb (fun v => fst (leading_ones 8 0 v) <=? 7) (seqZ 0 255) = true)
    as Hall by (vm_compute; reflexivity).
  rewrite forallb_forall in Hall.
  apply Z.leb_le, Hall, list_elem_of_In, elem_of_seqZ. unfold is_byte in Hv. lia.
Qed.

Lemma simpleMaskLength_from_below (n : Z) (v : Z) (tl : list Z) :
  0 <= n -> is_byte v -> v <> 255 ->
  simpleMaskLength_from n (v :: tl) <= n + 7.
Proof.
  intros Hn Hv Hne. cbn [simpleMaskLength_from].
  replace (v =? 255) with false by (symmetry; by apply Z.eqb_neq).
  rewrite leading_ones_shift.
  pose proof (leading_ones_below_8 v Hv Hne).
  destruct (negb (snd (leading_ones 8 0 v) =? 0)); [lia|].
  destruct (forallb (Z.eqb 0) tl); lia.
Qed.

(** A mask of prefix length 8 or more starts with the byte 255; of 16 or
    more, with two. *)
Lemma prefix_length_8 (ipnet : IPNet) :
  Forall is_byte (ipnet_Mask ipnet) ->
  8 <= prefix_length ipnet ->
  exists tl, ipnet_Mask ipnet = 255 :: tl.
Proof.
  unfold prefix_length, Size, simpleMaskLength.
  destruct (ipnet_Mask ipnet) as [|v tl]; [cbn; lia|].
  intros Hbytes. inversion_clear Hbytes as [|? ? Hv Htl].
  destruct (decide (v = 255)) as [->|Hne]; [by eexists|].
  pose proof (simpleMaskLength_from_below 0 v tl ltac:(lia) Hv Hne).
  destruct (_ =? -1); cbn [fst]; lia.
Qed.

Lemma prefix_length_16 (ipnet : IPNet) :
  Forall is_byte (ipnet_Mask ipnet) ->
  16 <= prefix_length ipnet ->
  exists tl, ipnet_Mask ipnet = 255 :: 255 :: tl.
Proof.
  intros Hbytes Hp.
  destruct (prefix_length_8 ipnet Hbytes ltac:(lia)) as [tl Hm].
  revert Hp Hbytes. unfold prefix_length, Size, simpleMaskLength. rewrite Hm.
  intros Hp Hbytes. inversion_clear Hbytes as [|? ? _ Htl].
  destruct tl as [|v tl].
  - exfalso. revert Hp. cbn. change (0 + 8 =? -1) with false. cbn. lia.
  - inversion_clear Htl as [|? ? Hv _].
    destruct (decide (v = 255)) as [->|Hne]; [by eexists|].
    exfalso. revert Hp.
    change (simpleMaskLength_from 0 (255 :: v :: tl))
      with (simpleMaskLength_from (0 + 8) (v :: tl)).
    pose proof (simpleMaskLength_from_below (0 + 8) v tl ltac:(lia) Hv Hne).
    destruct (_ =? -1); cbn [fst]; lia.
Qed.

Lemma networkNumberAndMask_same_family (ipnet : IPNet) :
  same_family ipnet ->
  networkNumberAndMask ipnet = (ipnet_IP ipnet, ipnet_Mask ipnet)
  \/ networkNumberAndMask ipnet = ([], []).
Proof.
  intros (Hlen & Hfam & _ & _). unfold networkNumberAndMask.
  destruct Hfam as [H4|Hnil].
  - rewrite To4_of_4 by done.
    destruct (ipnet_IP ipnet) as [|b tl] eqn:Eip; [done|].
    rewrite <- Hlen, H4. left. done.
  - rewrite Hnil. case_bool_decide as H16; [|by right].
    rewrite <- Hlen, H16. left. done.
Qed.

(** A range of prefix length 8 or more contains only addresses with its
    first byte; of 16 or more, only addresses with its first two. *)
Lemma Contains_keys (ipnet : IPNet) (x0 x1 : Z) (tl : list Z) :
  same_family ipnet ->
  length (x0 :: x1 :: tl) = 4%nat \/ To4 (x0 :: x1 :: tl) = [] ->
  Forall is_byte (x0 :: x1 :: tl) ->
  Contains ipnet (x0 :: x1 :: tl) = true ->
  (8 <= prefix_length ipnet -> byte_key ipnet = Some x0)
  /\ (16 <= prefix_length ipnet ->
      word_key ipnet = Some (Z.lor x1 (Z.shiftl x0 8))).
Proof.
  intros Hsame Hnormal Hbytes. unfold Contains.
  rewrite (to4_or_self_fixed _ Hnormal).
  destruct (networkNumberAndMask_same_family _ Hsame) as [-> | ->]; [|done].
  destruct Hsame as (_ & _ & Hip & Hmask).
  case_bool_decide as Hlen; [|done]. cbn [negb].
  inversion_clear Hbytes as [|? ? Hx0 Hbytes']. inversion_clear Hbytes' as [|? ? Hx1 _].
  intros Heq. split.
  - intros Hp. destruct (prefix_length_8 _ Hmask Hp) as [mtl Hm].
    unfold byte_key. rewrite Hm in Heq.
    destruct (ipnet_IP ipnet) as [|a0 atl]; [done|].
    inversion_clear Hip as [|? ? Ha0 _]. cbn in Heq |- *.
    destruct (Z.land a0 255 =? Z.land x0 255) eqn:E; [|done].
    apply Z.eqb_eq in E. rewrite !land_255 in E by done. congruence.
  - intros Hp. destruct (prefix_length_16 _ Hmask Hp) as [mtl Hm].
    unfold word_key. rewrite Hm in Heq.
    destruct (ipnet_IP ipnet) as [|a0 [|a1 atl]]; [done|done|].
    inversion_clear Hip as [|? ? Ha0 Hip']. inversion_clear Hip' as [|? ? Ha1 _].
    cbn in Heq |- *.
    destruct (Z.land a0 255 =? Z.land x0 255) eqn:E0; [|done].
    destruct (Z.land a1 255 =? Z.land x1 255) eqn:E1; [|done].
    apply Z.eqb_eq in E0, E1. rewrite !land_255 in E0, E1 by done. congruence.
Qed.

(** The three buckets [Contain] looks into hold every range of the set
    that contains the address. *)
Lemma scan_buckets (ranges : list IPNet) (x0 x1 : Z) (tl : list Z) :
  let x := x0 :: x1 :: tl in
  Forall same_family ranges ->
  length x = 4%nat \/ To4 x = [] ->
  Forall is_byte x ->
  linear_scan (List.filter
                 (in_bucket (WordBucket (Z.lor x1 (Z.shiftl x0 8)))) ranges) x
  || linear_scan (List.filter (in_bucket (ByteBucket x0)) ranges) x
  || linear_scan (List.filter (in_bucket Coarse) ranges) x
  = linear_scan ranges x.
Proof.
  intros x Hsame Hnormal Hbytes. unfold linear_scan.
  induction Hsame as [|ipnet ranges Hipnet _ IH]; [done|].
  cbn [List.filter existsb]. rewrite <- IH. clear IH.
  destruct (Contains ipnet x) eqn:Ec.
  - destruct (Contains_keys ipnet x0 x1 tl Hipnet Hnormal Hbytes Ec)
      as [Hbyte Hword].
    assert (in_bucket (WordBucket (Z.lor x1 (Z.shiftl x0 8))) ipnet = true
            \/ in_bucket (ByteBucket x0) ipnet = true
            \/ in_bucket Coarse ipnet = true) as Hin.
    { unfold in_bucket, bucket_of.
      destruct (prefix_length ipnet <? 8) eqn:E8.
      { right; right. by rewrite bool_decide_eq_true_2. }
      apply Z.ltb_ge in E8.
      destruct (prefix_length ipnet <? 16) eqn:E16.
      { right; left. rewrite (Hbyte E8). by rewrite bool_decide_eq_true_2. }
      apply Z.ltb_ge in E16.
      left. rewrite (Hword E16). by rewrite bool_decide_eq_true_2. }
    assert (forall id, in_bucket id ipnet = true ->
      existsb (fun n => Contains n x)
        (if in_bucket id ipnet
         then ipnet :: List.filter (in_bucket id) ranges
         else List.filter (in_bucket id) ranges) = true) as Hhit.
    { intros id ->. cbn [existsb]. by rewrite Ec. }
    cbn [orb].
    destruct Hin as [H|[H|H]]; rewrite (Hhit _ H); by rewrite ?orb_true_r.
  - cbn [orb].
    assert (forall id,
      existsb (fun n => Contains n x)
        (if in_bucket id ipnet
         then ipnet :: List.filter (in_bucket id) ranges
         else List.filter (in_bucket id) ranges)
      = existsb (fun n => Contains n x) (List.filter (in_bucket id) ranges))
      as Hskip.
    { intros id. destruct (in_bucket id ipnet); [|done].
      cbn [existsb]. by rewrite Ec. }
    by rewrite !Hskip.
Qed.

Lemma lookup_scan (m : gmap Z (list IPNet)) (k : Z) (ip : IP) :
  match m !! k with
  | Some iplist => ListConatins iplist ip
  | None => false
  end = linear_scan (default [] (m !! k)) ip.
Proof.
  destruct (m !! k); cbn; [apply ListConatins_linear_scan|done].
Qed.

(** The index agrees with the linear scan on every set of ranges whose
    base addresses and masks belong to the same family, for every
    well-formed address. *)
Lemma Contain_classified (f : IPFilter) (ranges : list IPNet) (ip : IP) :
  classifies f ranges ->
  Forall same_family ranges ->
  valid_ip ip ->
  Contain f ip = Ret (linear_scan ranges ip).
Proof.
  intros Hclass Hsame Hip.
  assert (linear_scan ranges ip = linear_scan ranges (to4_or_self ip)) as ->.
  { clear Hclass Hsame. unfold linear_scan.
    induction ranges as [|n ranges IH]; [done|].
    cbn. by rewrite IH, Contains_to4_or_self. }
  unfold Contain.
  destruct (to4_or_self_normal ip Hip) as [Hnormal Hbytes].
  destruct (to4_or_self ip) as [|x0 [|x1 tl]] eqn:Ex.
  { cbn in Hnormal. destruct Hnormal as [?|[? _]]; lia. }
  { cbn in Hnormal. destruct Hnormal as [?|[? _]]; lia. }
  assert (length (x0 :: x1 :: tl) = 4%nat \/ To4 (x0 :: x1 :: tl) = [])
    as Hnormal' by tauto.
  rewrite <- (scan_buckets ranges x0 x1 tl Hsame Hnormal' Hbytes).
  rewrite <- !Hclass. cbn [bucket_content].
  change (slice_to (x0 :: x1 :: tl) 2) with (Ret [x0; x1]).
  cbn [mbind go_bind].
  change (Binary.BigEndian_Uint16 [x0; x1])
    with (Ret (Z.lor x1 (Z.shiftl x0 8))).
  cbn [mbind go_bind index lookup list_lookup].
  rewrite !lookup_scan, ListConatins_linear_scan.
  destruct (linear_scan (default [] (idx2 f !! _)) _); [done|].
  destruct (linear_scan (default [] (idx1 f !! _)) _); [done|].
  by destruct (linear_scan (rest f) _).
Qed.

Lemma parses_to_functional (lines : list string) :
  forall ranges ranges' : list IPNet,
    Forall2 parses_to lines ranges ->
    Forall2 parses_to lines ranges' ->
    ranges = ranges'.
Proof.
  induction lines as [|line lines IH]; intros ranges ranges' H H'.
  - apply Forall2_nil_inv_l in H, H'. congruence.
  - apply Forall2_cons_inv_l in H as (n & tl & Hn & Htl & ->).
    apply Forall2_cons_inv_l in H' as (n' & tl' & Hn' & Htl' & ->).
    unfold parses_to in Hn, Hn'. rewrite Hn in Hn'. injection Hn' as <-.
    f_equal. by apply IH.
Qed.

(** C1, amended. Partition transparency for ranges of one family: when
    every line of the stream stands for a range whose base address and
    mask have the same length, the base not being an IPv4 address kept
    in 16-byte form, [Contain] on the index [ReadIPList] returns gives,
    for every address of 4 or 16 bytes, the result of the linear scan of
    the ranges of the stream. *)
Theorem ReadIPList_Contain_linear_scan (r : Bufio.Reader) (f : IPFilter)
    (ranges : list IPNet) (ip : IP) :
  ReadIPList r = Ret (Some f, None) ->
  Forall2 parses_to (stream_lines r) ranges ->
  Forall same_family ranges ->
  valid_ip ip ->
  Contain f ip = Ret (linear_scan ranges ip).
Proof.
  rewrite ReadIPList_lines. intros H%finish_index Hparse Hsame Hip.
  destruct (load_lines_classifies _ _ _ [] classifies_empty H)
    as (ranges' & Hparse' & _ & Hclass).
  rewrite (parses_to_functional _ _ _ Hparse Hparse').
  rewrite (parses_to_functional _ _ _ Hparse Hparse') in Hsame.
  by apply Contain_classified.
Qed.

Lemma ReadIPList_Contain_linear_scan_witness :
  let ranges :=
    [Fixtures.ten_slash_8;
     mkIPNet [1; 2; 3; 4] [255; 255; 255; 255];
     mkIPNet [0; 0; 0; 0] [240; 0; 0; 0]] in
  ReadIPList Fixtures.three_lines = Ret (Some Fixtures.filter_three, None)
  /\ Forall2 parses_to (stream_lines Fixtures.three_lines) ranges
  /\ Forall same_family ranges
  /\ valid_ip [10; 1; 2; 3]
  /\ Contain Fixtures.filter_three [10; 1; 2; 3]
     = Ret (linear_scan ranges [10; 1; 2; 3]).
Proof.
  intros ranges.
  assert (ReadIPList Fixtures.three_lines
          = Ret (Some Fixtures.filter_three, None)) as Hread
    by (vm_compute; reflexivity).
  assert (Forall2 parses_to (stream_lines Fixtures.three_lines) ranges)
    as Hparse by (repeat constructor; vm_compute; reflexivity).
  assert (Forall same_family ranges) as Hsame
    by (repeat constructor; unfold is_byte; simpl; lia).
  assert (valid_ip [10; 1; 2; 3]) as Hip
    by (split; [left; reflexivity|repeat constructor; unfold is_byte; lia]).
  split; [exact Hread|]. split; [exact Hparse|].
  split; [exact Hsame|]. split; [exact Hip|].
  exact (ReadIPList_Contain_linear_scan Fixtures.three_lines
           Fixtures.filter_three ranges [10; 1; 2; 3]
           Hread Hparse Hsame Hip).
Defined.

(** C1, as stated, fails: the two-token line ["1.2.3.4 ffff::"] gives a
    range with an IPv4 base address and a 16-byte mask, which contains
    every IPv4 address and is filed under the word key of 1.2; [Contain]
    does not find 5.6.7.8, which the linear scan finds. *)
Lemma Contain_linear_scan_counterexample :
  ~ (forall (r : Bufio.Reader) (f : IPFilter) (ranges : list IPNet) (ip : IP),
        ReadIPList r = Ret (Some f, None) ->
        Forall2 parses_to (stream_lines r) ranges ->
        valid_ip ip ->
        Contain f ip = Ret (linear_scan ranges ip)).
Proof.
  intros H.
  specialize (H Fixtures.mixed_line
                (mkIPFilter [] ∅ {[ 258 := [Fixtures.mixed_range] ]})
                [Fixtures.mixed_range] [5; 6; 7; 8]).
  assert (Ret false = Ret true :> go bool) as Habsurd; [|discriminate].
  apply H.
  - vm_compute; reflexivity.
  - repeat constructor; vm_compute; reflexivity.
  - split; [left; reflexivity|repeat constructor; unfold is_byte; lia].
Qed.

(** ** Ranges in CIDR form belong to one family *)

Lemma land_byte (a m : Z) : is_byte m -> is_byte (Z.land a m).
Proof.
  intros Hm. rewrite <- (land_255 m Hm), Z.land_assoc.
  change 255 with (Z.ones 8). rewrite Z.land_ones by lia.
  apply Z.mod_pos_bound. lia.
Qed.

Lemma zip_with_land_bytes (x m : list Z) :
  Forall is_byte m -> Forall is_byte (zip_with Z.land x m).
Proof.
  intros Hm. revert x. induction Hm as [|b m Hb _ IH]; intros [|a x]; cbn;
    try constructor; [by apply land_byte|apply IH].
Qed.

Lemma CIDRMask_loop_bytes (l : nat) :
  forall n : Z, 0 <= n -> Forall is_byte (CIDRMask_loop l n).
Proof.
  induction l as [|l IH]; intros n Hn; cbn [CIDRMask_loop]; [constructor|].
  destruct (8 <=? n) eqn:E.
  - apply Z.leb_le in E. constructor; [unfold is_byte; lia|apply IH; lia].
  - apply Z.leb_gt in E. constructor; [|by apply IH].
    assert (n = 0 \/ n = 1 \/ n = 2 \/ n = 3 \/ n = 4 \/ n = 5 \/ n = 6 \/ n = 7)
      as Hcases by lia.
    unfold is_byte.
    destruct Hcases as [->|[->|[->|[->|[->|[->|[->| ->]]]]]]];
      by vm_compute.
Qed.

Lemma CIDRMask_bytes (ones bits : Z) : Forall is_byte (CIDRMask ones bits).
Proof.
  unfold CIDRMask. destruct (_ && _); [constructor|].
  destruct (ones <? 0) eqn:E; [constructor|]. cbn [orb].
  destruct (bits <? ones); [constructor|].
  apply CIDRMask_loop_bytes. by apply Z.ltb_ge.
Qed.

(** The network [ParseCIDR] returns is made of bytes: its mask is a
    [CIDRMask] and its address has that mask applied. *)
Lemma ParseCIDR_bytes (s : string) (ip : list Z) (ipnet : IPNet) :
  ParseCIDR s = (ip, Some ipnet, None) ->
  Forall is_byte (ipnet_IP ipnet) /\ Forall is_byte (ipnet_Mask ipnet).
Proof.
  intros H. pose proof (ParseCIDR_shape _ _ _ H) as Hshape. revert H Hshape.
  unfold ParseCIDR.
  destruct (Strings.IndexByte s "/" <? 0); [done|].
  destruct (match parseIPv4 _ with [] => _ | _ => _ end) as [iplen ip'].
  destruct (dtoi _) as [[n i] ok].
  destruct (_ || _); [done|]. intros [= _ <-]. cbn [ipnet_IP ipnet_Mask].
  intros Hshape. split; [|apply CIDRMask_bytes].
  revert Hshape. unfold Mask.
  set (m := if _ && _ && allFF _ then _ else _).
  set (x := if _ && _ && bytes_equal _ _ then _ else _).
  assert (Forall is_byte m) as Hm.
  { unfold m. destruct (_ && _ && _); [apply Forall_drop|]; apply CIDRMask_bytes. }
  intros _. destruct (negb _); [constructor|]. by apply zip_with_land_bytes.
Qed.

(** A range in CIDR form whose stored base address has 4 bytes, or is not
    an IPv4 address, is of one family: this covers every address written
    in dotted decimal form and every IPv6 address that is not
    IPv4-mapped. *)
Lemma ParseCIDR_same_family (s : string) (ip : list Z) (ipnet : IPNet) :
  ParseCIDR s = (ip, Some ipnet, None) ->
  length (ipnet_IP ipnet) = 4%nat \/ To4 (ipnet_IP ipnet) = [] ->
  same_family ipnet.
Proof.
  intros H Hfam. destruct (ParseCIDR_bytes _ _ _ H) as [Hip Hmask].
  repeat split; try done.
  destruct (ParseCIDR_shape _ _ _ H) as [[-> ->]|[-> ->]]; done.
Qed.

(** The three ranges 10.0.0.0/8, 1.2.3.4/32 and 0.0.0.0/4 are of one
    family, so [Contain] on their index answers as the linear scan does,
    for every address. *)
Lemma Contain_three_lines :
  let ranges :=
    [Fixtures.ten_slash_8;
     mkIPNet [1; 2; 3; 4] [255; 255; 255; 255];
     mkIPNet [0; 0; 0; 0] [240; 0; 0; 0]] in
  ReadIPList Fixtures.three_lines = Ret (Some Fixtures.filter_three, None)
  /\ (forall ip, valid_ip ip ->
        Contain Fixtures.filter_three ip = Ret (linear_scan ranges ip))
  /\ Contain Fixtures.filter_three [10; 1; 2; 3] = Ret true
  /\ Contain Fixtures.filter_three [15; 0; 0; 1] = Ret true
  /\ Contain Fixtures.filter_three [16; 0; 0; 1] = Ret false.
Proof.
  intros ranges. split; [by vm_compute|].
  split; [|repeat split; vm_compute; reflexivity].
  assert (Forall same_family ranges) as Hsame.
  { repeat constructor; unfold is_byte; cbn; lia. }
  assert (load_lines empty_filter (stream_lines Fixtures.three_lines)
          = Ret (inl Fixtures.filter_three)) as Hload by (by vm_compute).
  destruct (load_lines_classifies _ _ _ [] classifies_empty Hload)
    as (new & Hparse & _ & Hnew).
  assert (new = ranges) as ->.
  { revert Hparse. change (stream_lines Fixtures.three_lines)
      with ["10.0.0.0/8" ++ Fixtures.nl; "1.2.3.4/32" ++ Fixtures.nl;
            "0.0.0.0/4" ++ Fixtures.nl]%string.
    intros Hparse.
    apply Forall2_cons_inv_l in Hparse as (n1 & new1 & H1 & Hparse & ->).
    apply Forall2_cons_inv_l in Hparse as (n2 & new2 & H2 & Hparse & ->).
    apply Forall2_cons_inv_l in Hparse as (n3 & new3 & H3 & Hparse & ->).
    apply Forall2_nil_inv_l in Hparse as ->.
    unfold parses_to in H1, H2, H3.
    vm_compute in H1. vm_compute in H2. vm_compute in H3.
    injection H1 as <-. injection H2 as <-. injection H3 as <-.
    reflexivity. }
  intros ip Hip. by apply Contain_classified.
Qed.

(** ** The scenarios of the specification *)

Lemma scenario_ranges :
  Fixtures.load_and_query "10.0.0.0/8" [10; 1; 2; 3] = Ret true
  /\ Fixtures.load_and_query "10.0.0.0/8" [11; 0; 0; 1] = Ret false
  /\ Fixtures.load_and_query "1.2.3.4/32" [1; 2; 3; 4] = Ret true
  /\ Fixtures.load_and_query "1.2.3.4/32" [1; 2; 3; 5] = Ret false
  /\ Fixtures.load_and_query "0.0.0.0/4" [15; 0; 0; 1] = Ret true
  /\ Fixtures.load_and_query "0.0.0.0/4" [16; 0; 0; 1] = Ret false.
Proof. repeat split; vm_compute; reflexivity. Qed.

Lemma scenario_dial :
  Dial (Fixtures.one_pair (Fixtures.constant_resolver (Some [[10; 0; 0; 5]])))
       "tcp" "blocked.example:443"
  = ([EvLookupIP "blocked.example"; EvDial "first" "tcp" "blocked.example:443"],
     Ret (Some 1%nat, None))
  /\ Dial (Fixtures.one_pair (Fixtures.constant_resolver (Some [[8; 8; 8; 8]])))
          "tcp" "blocked.example:443"
     = ([EvLookupIP "blocked.example";
         EvDial "default" "tcp" "blocked.example:443"],
        Ret (Some 0%nat, None))
  /\ Dial (Fixtures.one_pair Fixtures.failing_resolver)
          "tcp" "blocked.example:443"
     = ([EvLookupIP "blocked.example"], Ret (None, Some ErrDNSNotFound))
  /\ Dial (Fixtures.one_pair Fixtures.failing_resolver) "tcp" "10.0.0.5:443"
     = ([EvDial "first" "tcp" "10.0.0.5:443"], Ret (Some 1%nat, None)).
Proof. repeat split; vm_compute; reflexivity. Qed.

(** ** Further properties of the index *)

(** X1. [ListConatins] answers true exactly when some range of the list
    contains the address. *)
Theorem ListConatins_iff (iplist : list IPNet) (ip : IP) :
  ListConatins iplist ip = true
  <-> exists ipnet, ipnet ∈ iplist /\ Contains ipnet ip = true.
Proof.
  induction iplist as [|n iplist IH]; cbn [ListConatins].
  - split; [done|]. intros (ipnet & Hin & _). by apply elem_of_nil in Hin.
  - destruct (Contains n ip) eqn:En.
    + split; [|done]. intros _. exists n. split; [left|done].
    + rewrite IH. split.
      * intros (ipnet & Hin & Hc). exists ipnet. split; [by right|done].
      * intros (ipnet & Hin & Hc). apply elem_of_cons in Hin as [->|Hin];
          [congruence|]. by exists ipnet.
Qed.

Lemma to4_or_self_idem (ip : IP) :
  to4_or_self (to4_or_self ip) = to4_or_self ip.
Proof.
  apply to4_or_self_fixed. unfold to4_or_self.
  destruct (To4_length ip) as [E|E]; [rewrite E; by right|].
  destruct (To4 ip) eqn:E4; [by right|by left].
Qed.

(** X2. [Contain] gives the same answer for an IPv4 address in its
    16-byte IPv4-mapped form and in its 4-byte form. *)
Theorem Contain_mapped_form (f : IPFilter) (ip : IP) :
  To4 ip <> [] -> Contain f ip = Contain f (To4 ip).
Proof.
  intros Hv4. unfold Contain.
  replace (To4 ip) with (to4_or_self ip)
    by (unfold to4_or_self; by destruct (To4 ip)).
  by rewrite to4_or_self_idem.
Qed.

Lemma Contain_mapped_form_witness :
  To4 (IPv4 10 1 2 3) <> []
  /\ Contain Fixtures.filter_ten (IPv4 10 1 2 3)
     = Contain Fixtures.filter_ten (To4 (IPv4 10 1 2 3)).
Proof.
  split; [vm_compute; discriminate|].
  apply (Contain_mapped_form Fixtures.filter_ten (IPv4 10 1 2 3)).
  vm_compute; discriminate.
Defined.

Lemma to4_or_self_length_ge (ip : IP) :
  (2 <= length ip)%nat -> (2 <= length (to4_or_self ip))%nat.
Proof.
  intros H. unfold to4_or_self.
  destruct (To4_length ip) as [->|H4]; [done|].
  destruct (To4 ip); [done|]. lia.
Qed.

Lemma to4_or_self_short (ip : IP) :
  (length ip < 2)%nat -> to4_or_self ip = ip.
Proof.
  intros H. unfold to4_or_self, To4.
  rewrite !bool_decide_eq_false_2 by lia. done.
Qed.

Lemma Contain_returns (f : IPFilter) (ip : IP) :
  (2 <= length (to4_or_self ip))%nat -> exists b, Contain f ip = Ret b.
Proof.
  intros H. unfold Contain.
  destruct (to4_or_self ip) as [|x0 [|x1 tl]]; simpl in H; try lia.
  change (slice_to (x0 :: x1 :: tl) 2) with (Ret [x0; x1]).
  cbn [mbind go_bind].
  change (Binary.BigEndian_Uint16 [x0; x1])
    with (Ret (Z.lor x1 (Z.shiftl x0 8))).
  cbn [mbind go_bind index lookup list_lookup].
  destruct (match idx2 f !! _ with Some _ => _ | None => _ end); [by eexists|].
  destruct (match idx1 f !! _ with Some _ => _ | None => _ end); [by eexists|].
  destruct (ListConatins (rest f) _); by eexists.
Qed.

(** X3. [Contain] returns an answer exactly for the addresses of two
    bytes or more; on a shorter one, the nil address included, it
    panics on the slice [ip[:2]]. *)
Theorem Contain_returns_iff (f : IPFilter) (ip : IP) :
  ((exists b, Contain f ip = Ret b) <-> (2 <= length ip)%nat)
  /\ ((length ip < 2)%nat ->
      Contain f ip = Panic "slice bounds out of range").
Proof.
  assert ((length ip < 2)%nat ->
          Contain f ip = Panic "slice bounds out of range") as Hshort.
  { intros H. unfold Contain. rewrite to4_or_self_short by done.
    unfold slice_to. destruct ip as [|x0 [|x1 tl]]; simpl in H; try lia; done. }
  split; [|done]. split.
  - intros [b Hb]. destruct (decide (2 <= length ip)%nat); [done|].
    rewrite Hshort in Hb by lia. done.
  - intros H. by apply Contain_returns, to4_or_self_length_ge.
Qed.

Lemma Contains_normalised (ipnet : IPNet) (ip : IP) :
  Contains ipnet (to4_or_self ip) = Contains ipnet ip.
Proof. unfold Contains. by rewrite to4_or_self_idem. Qed.

Lemma linear_scan_normalised (ranges : list IPNet) (ip : IP) :
  linear_scan ranges (to4_or_self ip) = linear_scan ranges ip.
Proof.
  unfold linear_scan. induction ranges as [|n ranges IH]; [done|].
  cbn. by rewrite IH, Contains_normalised.
Qed.

Lemma linear_scan_filter (P : IPNet -> bool) (ranges : list IPNet) (ip : IP) :
  linear_scan (List.filter P ranges) ip = true -> linear_scan ranges ip = true.
Proof.
  unfold linear_scan. rewrite !existsb_exists.
  intros (n & Hin & Hn). apply filter_In in Hin as [Hin _]. eauto.
Qed.

(** What [Contain] computes on an address of two bytes or more: the
    scan of the word bucket, of the byte bucket and of the coarse
    bucket. *)
Lemma Contain_buckets (f : IPFilter) (ip : IP) (x0 x1 : Z) (tl : list Z) :
  to4_or_self ip = x0 :: x1 :: tl ->
  Contain f ip
  = Ret (linear_scan
           (bucket_content f (WordBucket (Z.lor x1 (Z.shiftl x0 8))))
           (x0 :: x1 :: tl)
         || linear_scan (bucket_content f (ByteBucket x0)) (x0 :: x1 :: tl)
         || linear_scan (bucket_content f Coarse) (x0 :: x1 :: tl)).
Proof.
  intros Ex. unfold Contain. rewrite Ex. cbn [bucket_content].
  change (slice_to (x0 :: x1 :: tl) 2) with (Ret [x0; x1]).
  cbn [mbind go_bind].
  change (Binary.BigEndian_Uint16 [x0; x1])
    with (Ret (Z.lor x1 (Z.shiftl x0 8))).
  cbn [mbind go_bind index lookup list_lookup].
  rewrite !lookup_scan, ListConatins_linear_scan.
  destruct (linear_scan (default [] (idx2 f !! _)) _); [done|].
  destruct (linear_scan (default [] (idx1 f !! _)) _); [done|].
  by destruct (linear_scan (rest f) _).
Qed.

Lemma Contain_true_inv (f : IPFilter) (ip : IP) :
  Contain f ip = Ret true ->
  exists id, linear_scan (bucket_content f id) (to4_or_self ip) = true.
Proof.
  intros H.
  destruct (to4_or_self ip) as [|x0 [|x1 tl]] eqn:Ex.
  - revert H. unfold Contain. by rewrite Ex.
  - revert H. unfold Contain. by rewrite Ex.
  - rewrite (Contain_buckets f ip x0 x1 tl Ex) in H. injection H as H.
    apply orb_true_iff in H as [H|H]; [|by exists Coarse].
    apply orb_true_iff in H as [H|H].
    + by exists (WordBucket (Z.lor x1 (Z.shiftl x0 8))).
    + by exists (ByteBucket x0).
Qed.

(** X4. No false positive: on the index [ReadIPList] returns, whatever
    the lines of the stream are, [Contain] answers true only for an
    address that the linear scan of the ranges of the stream finds. *)
Theorem Contain_sound (r : Bufio.Reader) (f : IPFilter)
    (ranges : list IPNet) (ip : IP) :
  ReadIPList r = Ret (Some f, None) ->
  Forall2 parses_to (stream_lines r) ranges ->
  Contain f ip = Ret true ->
  linear_scan ranges ip = true.
Proof.
  rewrite ReadIPList_lines. intros H%finish_index Hparse Hhit.
  destruct (load_lines_classifies _ _ _ [] classifies_empty H)
    as (ranges' & Hparse' & _ & Hclass).
  rewrite (parses_to_functional _ _ _ Hparse Hparse').
  destruct (Contain_true_inv f ip Hhit) as [id Hid].
  rewrite Hclass in Hid. apply linear_scan_filter in Hid.
  by rewrite linear_scan_normalised in Hid.
Qed.

Lemma Contain_sound_witness :
  ReadIPList Fixtures.mixed_line
  = Ret (Some (mkIPFilter [] ∅ {[ 258 := [Fixtures.mixed_range] ]}), None)
  /\ Forall2 parses_to (stream_lines Fixtures.mixed_line) [Fixtures.mixed_range]
  /\ Contain (mkIPFilter [] ∅ {[ 258 := [Fixtures.mixed_range] ]}) [1; 2; 9; 9]
     = Ret true
  /\ linear_scan [Fixtures.mixed_range] [1; 2; 9; 9] = true.
Proof.
  assert (ReadIPList Fixtures.mixed_line
          = Ret (Some (mkIPFilter [] ∅ {[ 258 := [Fixtures.mixed_range] ]}),
                 None)) as Hread by (vm_compute; reflexivity).
  assert (Forall2 parses_to (stream_lines Fixtures.mixed_line)
            [Fixtures.mixed_range]) as Hparse
    by (repeat constructor; vm_compute; reflexivity).
  assert (Contain (mkIPFilter [] ∅ {[ 258 := [Fixtures.mixed_range] ]})
            [1; 2; 9; 9] = Ret true) as Hhit by (vm_compute; reflexivity).
  split; [exact Hread|]. split; [exact Hparse|]. split; [exact Hhit|].
  exact (Contain_sound _ _ _ _ Hread Hparse Hhit).
Defined.

Lemma linear_scan_app (l l' : list IPNet) (ip : IP) :
  linear_scan (l ++ l') ip = linear_scan l ip || linear_scan l' ip.
Proof. apply existsb_app. Qed.

(** [Contain] after one classification step: what it answered before, or
    the new range when it sits in one of the three buckets of the
    address and contains it. *)
Lemma Contain_insert_range (f f' : IPFilter) (ipnet : IPNet) (ip : IP)
    (x0 x1 : Z) (tl : list Z) (b : bool) :
  insert_range f ipnet = Ret f' ->
  to4_or_self ip = x0 :: x1 :: tl ->
  Contain f ip = Ret b ->
  exists id,
    bucket_of ipnet = Some id
    /\ Contain f' ip
       = Ret (b || (bool_decide
                      (id = WordBucket (Z.lor x1 (Z.shiftl x0 8))
                       \/ id = ByteBucket x0 \/ id = Coarse)
                    && Contains ipnet ip)).
Proof.
  intros Hins Ex. rewrite !(Contain_buckets _ ip x0 x1 tl Ex).
  intros [= <-].
  destruct (insert_range_content _ _ _ Hins) as (id & Hid & Hcontent).
  exists id. split; [done|]. f_equal. rewrite !Hcontent, !linear_scan_app.
  rewrite <- (Contains_normalised ipnet ip), Ex.
  cbn [bucket_content].
  set (W := linear_scan (default [] (idx2 f !! _)) _).
  set (B := linear_scan (default [] (idx1 f !! _)) _).
  set (C := linear_scan (rest f) _).
  set (c := Contains ipnet _).
  assert (forall id' : bucket_id,
    linear_scan (if bool_decide (id' = id) then [ipnet] else [])
                (x0 :: x1 :: tl)
    = bool_decide (id' = id) && c) as Hone.
  { intros id'. case_bool_decide; cbn; [by rewrite orb_false_r|done]. }
  rewrite !Hone, !bool_decide_or.
  rewrite (bool_decide_ext (WordBucket (Z.lor x1 (Z.shiftl x0 8)) = id)
             (id = WordBucket (Z.lor x1 (Z.shiftl x0 8)))) by (split; congruence).
  rewrite (bool_decide_ext (ByteBucket x0 = id) (id = ByteBucket x0))
    by (split; congruence).
  rewrite (bool_decide_ext (Coarse = id) (id = Coarse)) by (split; congruence).
  destruct (bool_decide (id = WordBucket _)), (bool_decide (id = ByteBucket _)),
    (bool_decide (id = Coarse)), W, B, C, c; reflexivity.
Qed.

(** X5. Loading one more range never removes a match: an address the
    index contained before a classification step is still contained
    after it. *)
Theorem insert_range_keeps_matches (f f' : IPFilter) (ipnet : IPNet)
    (ip : IP) :
  insert_range f ipnet = Ret f' ->
  Contain f ip = Ret true ->
  Contain f' ip = Ret true.
Proof.
  intros Hins Hhit.
  destruct (to4_or_self ip) as [|x0 [|x1 tl]] eqn:Ex;
    try (revert Hhit; unfold Contain; by rewrite Ex).
  destruct (Contain_insert_range _ _ _ _ _ _ _ _ Hins Ex Hhit)
    as (id & _ & ->).
  done.
Qed.

Lemma insert_range_keeps_matches_witness :
  insert_range Fixtures.filter_ten (mkIPNet [1; 2; 3; 4] [255; 255; 255; 255])
  = Ret (mkIPFilter [] {[ 10 := [Fixtures.ten_slash_8] ]}
           {[ 258 := [mkIPNet [1; 2; 3; 4] [255; 255; 255; 255]] ]})
  /\ Contain Fixtures.filter_ten [10; 1; 2; 3] = Ret true
  /\ Contain (mkIPFilter [] {[ 10 := [Fixtures.ten_slash_8] ]}
                {[ 258 := [mkIPNet [1; 2; 3; 4] [255; 255; 255; 255]] ]})
             [10; 1; 2; 3] = Ret true.
Proof.
  assert (insert_range Fixtures.filter_ten
            (mkIPNet [1; 2; 3; 4] [255; 255; 255; 255])
          = Ret (mkIPFilter [] {[ 10 := [Fixtures.ten_slash_8] ]}
                   {[ 258 := [mkIPNet [1; 2; 3; 4] [255; 255; 255; 255]] ]}))
    as Hins by (vm_compute; reflexivity).
  assert (Contain Fixtures.filter_ten [10; 1; 2; 3] = Ret true) as Hhit
    by (vm_compute; reflexivity).
  split; [exact Hins|]. split; [exact Hhit|].
  exact (insert_range_keeps_matches _ _ _ _ Hins Hhit).
Defined.



(** X7. The classification step returns exactly when the base address
    has the bytes its bucket key needs: none below prefix length 8, one
    from 8 to 15, two from 16 on; otherwise it panics (a range without
    address and with a mask of 8 bits or more stops the load). *)
Theorem insert_range_returns_iff (f : IPFilter) (ipnet : IPNet) :
  (exists f', insert_range f ipnet = Ret f')
  <-> prefix_length ipnet < 8
      \/ (prefix_length ipnet < 16 /\ (1 <= length (ipnet_IP ipnet))%nat)
      \/ (2 <= length (ipnet_IP ipnet))%nat.
Proof.
  unfold insert_range, prefix_length.
  destruct (Size (ipnet_Mask ipnet)) as [ones bits]. cbn [fst].
  destruct (ones <? 8) eqn:E8.
  { apply Z.ltb_lt in E8. split; [auto|]. intros _. by eexists. }
  apply Z.ltb_ge in E8.
  replace (8 <=? ones) with true by (symmetry; apply Z.leb_le; lia).
  cbn [andb]. destruct (ones <? 16) eqn:E16.
  - apply Z.ltb_lt in E16.
    destruct (ipnet_IP ipnet) as [|b0 tl]; cbn.
    + split; [by intros [? ?]|]. intros [?|[[_ ?]|?]]; lia.
    + split; [|intros _; by eexists]. intros _. right; left. split; lia.
  - apply Z.ltb_ge in E16.
    destruct (ipnet_IP ipnet) as [|b0 [|b1 tl]]; cbn.
    + split; [by intros [? ?]|]. intros [?|[[? _]|?]]; lia.
    + split; [by intros [? ?]|]. intros [?|[[? _]|?]]; lia.
    + split; [|intros _; by eexists]. intros _. right; right. lia.
Qed.

(** ** Further properties of the parser of range lines *)

Lemma Split_with_space (line : string) :
  0 <= Strings.IndexByte line " " ->
  exists a b tl, Strings.Split line " " = a :: b :: tl.
Proof.
  induction line as [|c line IH]; cbn; [lia|].
  destruct (Ascii.eqb c " ") eqn:Ec.
  - intros _. destruct (Strings.Split line " ") as [|b tl] eqn:E; [|by eauto].
    exfalso. clear -E. by destruct line as [|c line]; cbn in E;
      [|destruct (Ascii.eqb c " "); [|destruct (Strings.Split line " ")]].
  - destruct (Strings.IndexByte line " " <? 0) eqn:E; [lia|].
    intros _. apply Z.ltb_ge in E.
    destruct (IH E) as (a & b & tl & ->). by eauto.
Qed.

(** X8. The outcome of [ParseLine] on any line: it panics on [addrs[1]]
    exactly when the line is not in CIDR form and has no space; on every
    other line it returns a range and a nil error. It never returns an
    error. *)
Theorem ParseLine_outcome (line : string) :
  if bool_decide (snd (ParseCIDR line) <> None)
     && (Strings.IndexByte line " " <? 0)
  then ParseLine line = Panic "index out of range"
  else exists ipnet, ParseLine line = Ret (Some ipnet, None).
Proof.
  case_bool_decide as Hcidr; cbn [andb].
  - destruct (Strings.IndexByte line " " <? 0) eqn:Hspace.
    + apply ParseLine_single_token; [done|by apply Z.ltb_lt].
    + apply Z.ltb_ge in Hspace.
      destruct (Split_with_space line Hspace) as (a & b & tl & Hsplit).
      unfold ParseLine. destruct (ParseCIDR line) as [[ip o] [e|]]; [|done].
      rewrite Hsplit. cbn. by eexists.
  - unfold ParseLine. destruct (ParseCIDR line) as [[ip o] [e|]] eqn:E.
    + done.
    + destruct (ParseCIDR_no_error _ _ _ E) as [ipnet ->]. by exists ipnet.
Qed.

Lemma CIDRMask_loop_zero (l : nat) :
  forallb (Z.eqb 0) (CIDRMask_loop l 0) = true.
Proof. induction l as [|l IH]; cbn; [done|]. exact IH. Qed.

Lemma leading_ones_partial_byte (n : Z) :
  0 <= n < 8 ->
  (255 - Z.shiftr 255 n =? 255) = false
  /\ leading_ones 8 0 (255 - Z.shiftr 255 n) = (n, 0).
Proof.
  intros Hn.
  assert (n = 0 \/ n = 1 \/ n = 2 \/ n = 3 \/ n = 4 \/ n = 5 \/ n = 6 \/ n = 7)
    as Hcases by lia.
  destruct Hcases as [->|[->|[->|[->|[->|[->|[->| ->]]]]]]];
    vm_compute; split; reflexivity.
Qed.

Lemma simpleMaskLength_CIDRMask_loop (l : nat) :
  forall acc n : Z,
    0 <= acc -> 0 <= n <= 8 * Z.of_nat l ->
    simpleMaskLength_from acc (CIDRMask_loop l n) = acc + n.
Proof.
  induction l as [|l IH]; intros acc n Hacc Hn; cbn [CIDRMask_loop].
  - cbn. lia.
  - destruct (8 <=? n) eqn:E.
    + apply Z.leb_le in E.
      change (simpleMaskLength_from acc (255 :: CIDRMask_loop l (n - 8)))
        with (simpleMaskLength_from (acc + 8) (CIDRMask_loop l (n - 8))).
      rewrite IH by lia. lia.
    + apply Z.leb_gt in E.
      destruct (leading_ones_partial_byte n ltac:(lia)) as [Hne Hones].
      cbn [simpleMaskLength_from]. rewrite Hne, leading_ones_shift, Hones.
      rewrite CIDRMask_loop_zero. cbn. done.
Qed.

(** [Size] reads back what [CIDRMask] wrote. *)
Lemma Size_CIDRMask (ones bits : Z) :
  bits = 32 \/ bits = 128 -> 0 <= ones <= bits ->
  Size (CIDRMask ones bits) = (ones, bits).
Proof.
  intros Hbits Hones. unfold Size, simpleMaskLength.
  assert ((ones <? 0) = false) as H0 by (apply Z.ltb_ge; lia).
  assert ((bits <? ones) = false) as H1 by (apply Z.ltb_ge; lia).
  rewrite CIDRMask_length by done.
  unfold CIDRMask. rewrite H0, H1.
  change (8 * IPv4len) with 32. change (8 * IPv6len) with 128.
  destruct Hbits as [-> | ->]; cbn [negb andb orb Z.eqb Pos.eqb].
  - change (Z.to_nat (32 `div` 8)) with 4%nat.
    rewrite simpleMaskLength_CIDRMask_loop by lia.
    replace (0 + ones =? -1) with false by (symmetry; apply Z.eqb_neq; lia).
    f_equal.
  - change (Z.to_nat (128 `div` 8)) with 16%nat.
    rewrite simpleMaskLength_CIDRMask_loop by lia.
    replace (0 + ones =? -1) with false by (symmetry; apply Z.eqb_neq; lia).
    f_equal.
Qed.

(** X9. For a line in CIDR form, the prefix length the range is
    classified by is the number written after the slash. *)
Theorem ParseLine_cidr_prefix_length (line : string) (ipnet : IPNet) :
  ParseLine line = Ret (Some ipnet, None) ->
  snd (ParseCIDR line) = None ->
  prefix_length ipnet
  = fst (fst (dtoi (string_drop
                      (Z.to_nat (Strings.IndexByte line "/" + 1)) line))).
Proof.
  unfold ParseLine, prefix_length.
  destruct (ParseCIDR line) as [[ip o] [e|]] eqn:Ecidr; [done|].
  cbn. intros [= ->] _. revert Ecidr. unfold ParseCIDR.
  destruct (Strings.IndexByte line "/" <? 0); [done|].
  set (mask := string_drop _ line).
  destruct (match parseIPv4 _ with [] => _ | _ => _ end) as [iplen ip'] eqn:Eip.
  assert (8 * iplen = 32 \/ 8 * iplen = 128) as Hbits.
  { destruct (parseIPv4 _); injection Eip as <- _; auto. }
  destruct (dtoi mask) as [[n i] ok].
  destruct (bool_decide (ip' = []) || negb ok || negb (i =? len mask)) ; [done|].
  cbn [orb]. destruct (n <? 0) eqn:En0; [done|]. cbn [orb].
  destruct (8 * iplen <? n) eqn:En; [done|].
  intros [= _ <-]. cbn [ipnet_Mask fst].
  apply Z.ltb_ge in En0, En. by rewrite Size_CIDRMask.
Qed.

Lemma ParseLine_cidr_prefix_length_witness :
  ParseLine "10.1.2.3/12"
  = Ret (Some (mkIPNet [10; 0; 0; 0] [255; 240; 0; 0]), None)
  /\ snd (ParseCIDR "10.1.2.3/12") = None
  /\ prefix_length (mkIPNet [10; 0; 0; 0] [255; 240; 0; 0])
     = fst (fst (dtoi (string_drop
                         (Z.to_nat (Strings.IndexByte "10.1.2.3/12" "/" + 1))
                         "10.1.2.3/12"))).
Proof.
  assert (ParseLine "10.1.2.3/12"
          = Ret (Some (mkIPNet [10; 0; 0; 0] [255; 240; 0; 0]), None)) as Hparse
    by (vm_compute; reflexivity).
  assert (snd (ParseCIDR "10.1.2.3/12") = None) as Hcidr
    by (vm_compute; reflexivity).
  split; [exact Hparse|]. split; [exact Hcidr|].
  exact (ParseLine_cidr_prefix_length _ _ Hparse Hcidr).
Defined.

(** X10. The form of the stored base address: for every line [ParseLine]
    accepts, the base address is not an IPv4 address, or has 4 bytes,
    unless the line is in CIDR form with an address that is not written
    in dotted decimal form. *)
Theorem ParseLine_base_address_form (line : string) (ipnet : IPNet) :
  ParseLine line = Ret (Some ipnet, None) ->
  To4 (ipnet_IP ipnet) = []
  \/ length (ipnet_IP ipnet) = 4%nat
  \/ (snd (ParseCIDR line) = None
      /\ parseIPv4 (string_take (Z.to_nat (Strings.IndexByte line "/")) line)
         = []).
Proof.
  intros Hparse.
  destruct (snd (ParseCIDR line)) as [e|] eqn:Ecidr.
  - destruct (ParseLine_fallback_normalised line ipnet) as [?|?]; auto.
    by rewrite Ecidr.
  - destruct (parseIPv4 (string_take _ line)) as [|b tl] eqn:E4; [auto|].
    right; left. revert Hparse. unfold ParseLine.
    destruct (ParseCIDR line) as [[ip o] e] eqn:E. cbn in Ecidr. subst e.
    cbn. intros [= ->].
    eapply ParseCIDR_dotted_normalised; [exact E|]. by rewrite E4.
Qed.

Lemma ParseLine_base_address_form_witness :
  ParseLine "::ffff:10.0.0.0 255.0.0.0" = Ret (Some Fixtures.ten_slash_8, None)
  /\ (To4 (ipnet_IP Fixtures.ten_slash_8) = []
      \/ length (ipnet_IP Fixtures.ten_slash_8) = 4%nat
      \/ (snd (ParseCIDR "::ffff:10.0.0.0 255.0.0.0") = None
          /\ parseIPv4 (string_take
                          (Z.to_nat (Strings.IndexByte
                                       "::ffff:10.0.0.0 255.0.0.0" "/"))
                          "::ffff:10.0.0.0 255.0.0.0") = [])).
Proof.
  assert (ParseLine "::ffff:10.0.0.0 255.0.0.0"
          = Ret (Some Fixtures.ten_slash_8, None)) as Hparse
    by (vm_compute; reflexivity).
  split; [exact Hparse|].
  exact (ParseLine_base_address_form _ _ Hparse).
Defined.

(** ** Further properties of the list loader *)

(** X11. What [ReadIPList] returns when it returns: an index and no
    error when the stream ends cleanly, no index and the error of the
    stream when it ends with a read error; never an index together with
    an error, and never an error that comes from a line. *)
Theorem ReadIPList_outcome (r : Bufio.Reader) (f : option IPFilter)
    (e : option error) :
  ReadIPList r = Ret (f, e) ->
  (Bufio.rd_err r = EOF /\ is_Some f /\ e = None)
  \/ (Bufio.rd_err r <> EOF /\ f = None /\ e = Some (Bufio.rd_err r)).
Proof.
  rewrite ReadIPList_lines.
  pose proof (load_lines_no_error (stream_lines r) empty_filter) as Hno.
  destruct (load_lines empty_filter (stream_lines r)) as [[f1|e1]|]; cbn.
  - destruct (Bufio.rd_err r); intros [= <- <-];
      (left; by eauto) || (right; by eauto).
  - by destruct (Hno e1).
  - done.
Qed.

Lemma ReadIPList_outcome_witness :
  let r := Bufio.mkReader ("10.0.0.0/8" ++ Fixtures.nl ++ "1.2.3")
                          (OtherError "read failed") in
  ReadIPList r = Ret (None, Some (OtherError "read failed"))
  /\ ((Bufio.rd_err r = EOF /\ is_Some (@None IPFilter)
       /\ Some (OtherError "read failed") = None)
      \/ (Bufio.rd_err r <> EOF /\ @None IPFilter = None
          /\ Some (OtherError "read failed") = Some (Bufio.rd_err r))).
Proof.
  intros r.
  assert (ReadIPList r = Ret (None, Some (OtherError "read failed"))) as Hread
    by (vm_compute; reflexivity).
  split; [exact Hread|]. exact (ReadIPList_outcome r _ _ Hread).
Defined.

Lemma in_cutset_padding (c : ascii) :
  (Ascii.eqb c " " || Ascii.eqb c "013") = true ->
  Strings.in_cutset cutset c = true.
Proof.
  intros [H|H]%orb_true_iff; apply Ascii.eqb_eq in H; by subst.
Qed.

Lemma TrimLeft_padding (p s : string) :
  is_padding p = true ->
  Strings.TrimLeft (p ++ s) cutset = Strings.TrimLeft s cutset.
Proof.
  induction p as [|c p IH]; [done|].
  cbn [is_padding]. intros [Hc Hp]%andb_true_iff.
  change (String c p ++ s)%string with (String c (p ++ s))%string.
  cbn [Strings.TrimLeft]. rewrite (in_cutset_padding c Hc). by apply IH.
Qed.

Lemma TrimRight_only_padding (p : string) :
  is_padding p = true -> Strings.TrimRight p cutset = EmptyString.
Proof.
  induction p as [|c p IH]; [done|].
  cbn [is_padding]. intros [Hc Hp]%andb_true_iff.
  cbn [Strings.TrimRight]. by rewrite IH, (in_cutset_padding c Hc).
Qed.

Lemma TrimRight_padding (s p : string) :
  is_padding p = true ->
  Strings.TrimRight (s ++ p) cutset = Strings.TrimRight s cutset.
Proof.
  intros Hp. induction s as [|c s IH].
  - by apply TrimRight_only_padding.
  - change (String c s ++ p)%string with (String c (s ++ p))%string.
    cbn [Strings.TrimRight]. by rewrite IH.
Qed.

Lemma TrimLeft_only_padding (p : string) :
  is_padding p = true -> Strings.TrimLeft p cutset = EmptyString.
Proof.
  induction p as [|c p IH]; [done|].
  cbn [is_padding]. intros [Hc Hp]%andb_true_iff.
  cbn [Strings.TrimLeft]. by rewrite (in_cutset_padding c Hc), IH.
Qed.

Lemma Trim_padding (before line after : string) :
  is_padding before = true -> is_padding after = true ->
  Strings.Trim (before ++ line ++ after) cutset = Strings.Trim line cutset.
Proof.
  intros Hb Ha. unfold Strings.Trim. rewrite TrimLeft_padding by done.
  induction line as [|c line IH].
  - change (EmptyString ++ after)%string with after.
    by rewrite TrimLeft_only_padding.
  - change (String c line ++ after)%string
      with (String c (line ++ after))%string.
    cbn [Strings.TrimLeft].
    destruct (Strings.in_cutset cutset c); [done|].
    change (String c (line ++ after))%string
      with (String c line ++ after)%string.
    by apply TrimRight_padding.
Qed.

Lemma IndexByte_app_none (a b : string) (c : ascii) :
  Strings.IndexByte a c < 0 -> Strings.IndexByte b c < 0 ->
  Strings.IndexByte (a ++ b) c < 0.
Proof.
  intros Ha Hb. induction a as [|d a IH]; [done|].
  change (String d a ++ b)%string with (String d (a ++ b))%string.
  cbn [Strings.IndexByte] in Ha |- *.
  destruct (Ascii.eqb d c); [lia|].
  destruct (Strings.IndexByte a c <? 0) eqn:E; [|lia].
  apply Z.ltb_lt in E. specialize (IH E).
  replace (Strings.IndexByte (a ++ b) c <? 0) with true
    by (symmetry; by apply Z.ltb_lt).
  lia.
Qed.

Lemma is_padding_no_newline (p : string) :
  is_padding p = true -> Strings.IndexByte p "010" < 0.
Proof.
  induction p as [|c p IH]; [cbn; lia|].
  cbn [is_padding]. intros [Hc Hp]%andb_true_iff.
  cbn [Strings.IndexByte]. specialize (IH Hp).
  replace (Ascii.eqb c "010") with false.
  - replace (Strings.IndexByte p "010" <? 0) with true
      by (symmetry; by apply Z.ltb_lt).
    lia.
  - symmetry. apply Ascii.eqb_neq. intros ->.
    by apply orb_true_iff in Hc as [Hc|Hc].
Qed.

(** X13. Spaces and carriage returns around a line are ignored: a
    stream whose lines are padded with them gives the same result as
    the stream of the lines themselves. *)
Theorem ReadIPList_ignores_padding (lines padded : list string) :
  Forall2 padded_of lines padded ->
  Forall (fun line => Strings.IndexByte line "010" < 0) lines ->
  ReadIPList (Bufio.mkReader (terminated padded) EOF)
  = ReadIPList (Bufio.mkReader (terminated lines) EOF).
Proof.
  intros Hpad Hlines.
  assert (Forall (fun line => Strings.IndexByte line "010" < 0) padded)
    as Hpadded.
  { clear -Hpad Hlines. induction Hpad as [|l p ls ps Hp _ IH]; [done|].
    inversion_clear Hlines as [|? ? Hl Hls].
    constructor; [|by apply IH].
    destruct Hp as (b & a & Hb & Ha & ->).
    apply IndexByte_app_none; [by apply is_padding_no_newline|].
    apply IndexByte_app_none; [done|by apply is_padding_no_newline]. }
  rewrite !ReadIPList_lines, !stream_lines_terminated by done.
  cbn [Bufio.rd_err]. f_equal.
  generalize empty_filter. clear -Hpad.
  induction Hpad as [|l p ls ps Hp _ IH]; intros f; [done|].
  cbn [map load_lines].
  assert (load_line f (p ++ String "010" EmptyString)
          = load_line f (l ++ String "010" EmptyString)) as ->.
  { destruct Hp as (b & a & Hb & Ha & ->).
    rewrite !load_line_newline. unfold load_line. by rewrite Trim_padding. }
  destruct (load_line f _) as [[f1|e]|]; cbn; [apply IH|done|done].
Qed.

Lemma ReadIPList_ignores_padding_witness :
  let lines := ["10.0.0.0/8"; "1.2.3.4/32"]%string in
  let padded := ["  10.0.0.0/8" ++ String "013" EmptyString;
                 "1.2.3.4/32 "]%string in
  Forall2 padded_of lines padded
  /\ Forall (fun line => Strings.IndexByte line "010" < 0) lines
  /\ ReadIPList (Bufio.mkReader (terminated padded) EOF)
     = ReadIPList (Bufio.mkReader (terminated lines) EOF).
Proof.
  intros lines padded.
  assert (Forall2 padded_of lines padded) as Hpad.
  { constructor; [|constructor; [|constructor]].
    - exists "  "%string, (String "013" EmptyString). by repeat split.
    - exists EmptyString, " "%string. by repeat split. }
  assert (Forall (fun line => Strings.IndexByte line "010" < 0) lines) as Hlines
    by (repeat constructor; vm_compute; reflexivity).
  split; [exact Hpad|]. split; [exact Hlines|].
  exact (ReadIPList_ignores_padding lines padded Hpad Hlines).
Defined.

Lemma insert_range_any (f g g' : IPFilter) (ipnet : IPNet) :
  insert_range g ipnet = Ret g' -> exists f', insert_range f ipnet = Ret f'.
Proof.
  unfold insert_range. destruct (Size (ipnet_Mask ipnet)) as [ones bits].
  destruct (ones <? 8); [by eexists|].
  destruct ((8 <=? ones) && (ones <? 16)).
  - destruct (index (ipnet_IP ipnet) 0); cbn; [by eexists|done].
  - destruct (slice_to (ipnet_IP ipnet) 2) as [b|]; cbn; [|done].
    destruct (Binary.BigEndian_Uint16 b); cbn; [by eexists|done].
Qed.

(** What loading lines adds to each bucket does not depend on the index
    the load starts from. *)
Lemma load_lines_shift (lines : list string) :
  forall g g' : IPFilter,
    load_lines g lines = Ret (inl g') ->
    exists news : bucket_id -> list IPNet,
      forall f, exists f',
        load_lines f lines = Ret (inl f')
        /\ forall id, bucket_content f' id = bucket_content f id ++ news id.
Proof.
  induction lines as [|line lines IH]; intros g g'; cbn [load_lines].
  - intros _. exists (fun _ => []). intros f. exists f.
    split; [done|]. intros id. by rewrite app_nil_r.
  - destruct (load_line g line) as [[g1|e]|] eqn:Eg; cbn; try done.
    intros Hrest. destruct (IH _ _ Hrest) as [news' Hnews'].
    destruct (load_line_inv _ _ _ Eg) as (ipnet & Hparse & Hins).
    destruct (insert_range_content _ _ _ Hins) as (id0 & Hid0 & _).
    exists (fun id => (if bool_decide (id = id0) then [ipnet] else [])
                      ++ news' id).
    intros f. destruct (insert_range_any f _ _ _ Hins) as [f1 Hf1].
    destruct (insert_range_content _ _ _ Hf1) as (id1 & Hid1 & Hcontent).
    assert (id1 = id0) as -> by congruence.
    destruct (Hnews' f1) as (f' & Hf' & Hcontent').
    exists f'. split.
    + unfold load_line. unfold parses_to in Hparse. rewrite Hparse. cbn.
      rewrite Hf1. cbn. exact Hf'.
    + intros id. by rewrite Hcontent', Hcontent, app_assoc.
Qed.

(** X14. Loading two lists one after the other: when each of two
    streams of terminated lines loads, so does their concatenation, and
    [Contain] on its index answers true exactly when it does on the
    index of the first or on the index of the second. *)
Theorem ReadIPList_append (lines1 lines2 : list string) (f1 f2 : IPFilter) :
  Forall (fun line => Strings.IndexByte line "010" < 0) lines1 ->
  Forall (fun line => Strings.IndexByte line "010" < 0) lines2 ->
  ReadIPList (Bufio.mkReader (terminated lines1) EOF) = Ret (Some f1, None) ->
  ReadIPList (Bufio.mkReader (terminated lines2) EOF) = Ret (Some f2, None) ->
  exists f,
    ReadIPList (Bufio.mkReader (terminated (lines1 ++ lines2)) EOF)
    = Ret (Some f, None)
    /\ (forall id, bucket_content f id
                   = bucket_content f1 id ++ bucket_content f2 id)
    /\ (forall ip b1 b2,
          Contain f1 ip = Ret b1 -> Contain f2 ip = Ret b2 ->
          Contain f ip = Ret (b1 || b2)).
Proof.
  intros Hnl1 Hnl2.
  rewrite !ReadIPList_lines, !stream_lines_terminated
    by (done || by apply Forall_app).
  cbn [Bufio.rd_err]. intros H1%finish_index H2%finish_index.
  destruct (load_lines_shift _ _ _ H2) as [news Hnews].
  destruct (Hnews empty_filter) as (f2' & Hf2' & Hc2).
  assert (f2' = f2) as -> by congruence.
  destruct (Hnews f1) as (f & Hf & Hc).
  exists f.
  assert (forall id, bucket_content f id
                     = bucket_content f1 id ++ bucket_content f2 id) as Hcontent.
  { intros id. rewrite Hc, Hc2. by destruct id. }
  split; [|split; [exact Hcontent|]].
  - rewrite map_app, load_lines_app, H1. cbn. by rewrite Hf.
  - intros ip b1 b2 Hb1 Hb2.
    destruct (to4_or_self ip) as [|x0 [|x1 tl]] eqn:Ex;
      try (revert Hb1; unfold Contain; by rewrite Ex).
    rewrite (Contain_buckets f1 ip x0 x1 tl Ex) in Hb1.
    rewrite (Contain_buckets f2 ip x0 x1 tl Ex) in Hb2.
    rewrite (Contain_buckets f ip x0 x1 tl Ex).
    injection Hb1 as <-. injection Hb2 as <-. f_equal.
    rewrite !Hcontent, !linear_scan_app. cbn [bucket_content].
    repeat match goal with
           | |- context [linear_scan ?l ?x] =>
               let b := fresh "b" in
               set (b := linear_scan l x); clearbody b
           end.
    repeat match goal with b : bool |- _ => destruct b end; reflexivity.
Qed.

Lemma ReadIPList_append_witness :
  let lines1 := ["10.0.0.0/8"]%string in
  let lines2 := ["1.2.3.4/32"; "0.0.0.0/4"]%string in
  let f1 := Fixtures.filter_ten in
  let f2 := mkIPFilter [mkIPNet [0; 0; 0; 0] [240; 0; 0; 0]] ∅
              {[ 258 := [mkIPNet [1; 2; 3; 4] [255; 255; 255; 255]] ]} in
  Forall (fun line => Strings.IndexByte line "010" < 0) lines1
  /\ Forall (fun line => Strings.IndexByte line "010" < 0) lines2
  /\ ReadIPList (Bufio.mkReader (terminated lines1) EOF) = Ret (Some f1, None)
  /\ ReadIPList (Bufio.mkReader (terminated lines2) EOF) = Ret (Some f2, None)
  /\ exists f,
       ReadIPList (Bufio.mkReader (terminated (lines1 ++ lines2)) EOF)
       = Ret (Some f, None)
       /\ (forall id, bucket_content f id
                      = bucket_content f1 id ++ bucket_content f2 id)
       /\ (forall ip b1 b2,
             Contain f1 ip = Ret b1 -> Contain f2 ip = Ret b2 ->
             Contain f ip = Ret (b1 || b2)).
Proof.
  intros lines1 lines2 f1 f2.
  assert (Forall (fun line => Strings.IndexByte line "010" < 0) lines1) as Hnl1
    by (repeat constructor; vm_compute; reflexivity).
  assert (Forall (fun line => Strings.IndexByte line "010" < 0) lines2) as Hnl2
    by (repeat constructor; vm_compute; reflexivity).
  assert (ReadIPList (Bufio.mkReader (terminated lines1) EOF)
          = Ret (Some f1, None)) as H1 by (vm_compute; reflexivity).
  assert (ReadIPList (Bufio.mkReader (terminated lines2) EOF)
          = Ret (Some f2, None)) as H2 by (vm_compute; reflexivity).
  split; [exact Hnl1|]. split; [exact Hnl2|].
  split; [exact H1|]. split; [exact H2|].
  exact (ReadIPList_append lines1 lines2 f1 f2 Hnl1 Hnl2 H1 H2).
Defined.

(** ** Further properties of loading a file *)

Lemma ReadIPList_index_or_error (r : Bufio.Reader) (f : option IPFilter)
    (e : option error) :
  ReadIPList r = Ret (f, e) ->
  match e with
  | None => is_Some f
  | Some err => f = None /\ err = Bufio.rd_err r /\ err <> EOF
  end.
Proof.
  rewrite ReadIPList_lines.
  pose proof (load_lines_no_error (stream_lines r) empty_filter) as Hno.
  destruct (load_lines empty_filter (stream_lines r)) as [[f1|e1]|]; cbn.
  - destruct (Bufio.rd_err r); intros [= <- <-]; by eauto.
  - by destruct (Hno e1).
  - done.
Qed.

Lemma ReadIPList_stream_outcome (fs : OS.FileSystem) (filename : string)
    (stream : Bufio.Reader) (f : option IPFilter) (e : option error) :
  file_stream fs filename stream ->
  ReadIPList stream = Ret (f, e) ->
  match e with
  | None =>
      exists stream filter,
        file_stream fs filename stream
        /\ ReadIPList stream = Ret (Some filter, None)
        /\ f = Some filter
  | Some err =>
      f = None
      /\ (OS.Open fs filename = inr err
          \/ (exists file,
                OS.Open fs filename = inl file
                /\ Strings.HasSuffix filename ".gz" = true
                /\ OS.gzip_NewReader fs file = inr err)
          \/ (exists stream,
                file_stream fs filename stream
                /\ Bufio.rd_err stream = err
                /\ err <> EOF))
  end.
Proof.
  intros Hstream H. pose proof (ReadIPList_index_or_error _ _ _ H) as Hshape.
  destruct e as [err|].
  - destruct Hshape as (-> & -> & Hne). split; [done|].
    right; right. by exists stream.
  - destruct Hshape as [filter ->]. by exists stream, filter.
Qed.

(** X15. What [ReadIPListFile] returns when it returns.  With no error,
    the index is the one [ReadIPList] builds from the stream of the
    file: the opened file, or the gzip reader over it for a name ending
    in [.gz].  With an error there is no index, and the error is the
    error of [os.Open], or the error of [gzip.NewReader] for a name
    ending in [.gz], or the read error, other than end of file, that
    ended the stream of the file. *)
Theorem ReadIPListFile_outcome (fs : OS.FileSystem) (filename : string)
    (f : option IPFilter) (e : option error) :
  ReadIPListFile fs filename = Ret (f, e) ->
  match e with
  | None =>
      exists stream filter,
        file_stream fs filename stream
        /\ ReadIPList stream = Ret (Some filter, None)
        /\ f = Some filter
  | Some err =>
      f = None
      /\ (OS.Open fs filename = inr err
          \/ (exists file,
                OS.Open fs filename = inl file
                /\ Strings.HasSuffix filename ".gz" = true
                /\ OS.gzip_NewReader fs file = inr err)
          \/ (exists stream,
                file_stream fs filename stream
                /\ Bufio.rd_err stream = err
                /\ err <> EOF))
  end.
Proof.
  unfold ReadIPListFile. intros H.
  remember (OS.Open fs filename) as opened eqn:Eopen in H.
  remember (Strings.HasSuffix filename ".gz") as gz eqn:Egz in H.
  symmetry in Eopen, Egz.
  destruct opened as [file|err0].
  - destruct gz.
    + destruct (OS.gzip_NewReader fs file) as [stream|err1] eqn:Egzip.
      * apply (ReadIPList_stream_outcome fs filename stream); [|done].
        exists file. by rewrite Egz.
      * cbn in H. injection H as <- <-. split; [done|].
        right; left. by exists file.
    + apply (ReadIPList_stream_outcome fs filename file); [|done].
      exists file. by rewrite Egz.
  - cbn in H. injection H as <- <-. split; [done|]. by left.
Qed.

Lemma ReadIPListFile_outcome_witness :
  let err := OtherError "unexpected EOF" in
  ReadIPListFile Fixtures.truncated_gz "list.gz" = Ret (None, Some err)
  /\ @None IPFilter = None
  /\ (OS.Open Fixtures.truncated_gz "list.gz" = inr err
      \/ (exists file,
            OS.Open Fixtures.truncated_gz "list.gz" = inl file
            /\ Strings.HasSuffix "list.gz" ".gz" = true
            /\ OS.gzip_NewReader Fixtures.truncated_gz file = inr err)
      \/ (exists stream,
            file_stream Fixtures.truncated_gz "list.gz" stream
            /\ Bufio.rd_err stream = err
            /\ err <> EOF)).
Proof.
  intros err.
  assert (ReadIPListFile Fixtures.truncated_gz "list.gz"
          = Ret (None, Some err))
    as Hread by (vm_compute; reflexivity).
  split; [exact Hread|].
  exact (ReadIPListFile_outcome Fixtures.truncated_gz "list.gz" _ _ Hread).
Defined.

Lemma ReadIPListFile_no_error (fs : OS.FileSystem) (filename : string)
    (f : option IPFilter) :
  ReadIPListFile fs filename = Ret (f, None) -> is_Some f.
Proof.
  unfold ReadIPListFile.
  destruct (OS.Open fs filename) as [file|err0]; [|done].
  destruct (Strings.HasSuffix filename ".gz").
  - destruct (OS.gzip_NewReader fs file) as [stream|err1]; [|done].
    apply ReadIPList_index_or_error.
  - apply ReadIPList_index_or_error.
Qed.

(** X16. A successful [LoadFilter] registers the pair last: the pairs
    already registered keep their places, the new pair, with the given
    dialer and a loaded index, comes after them, and the default dialer
    and the resolver are unchanged. *)
Theorem LoadFilter_success (fs : OS.FileSystem) (fd fd' : FilteredDialer)
    (dialer : Dialer) (filename : string) :
  LoadFilter fs fd dialer filename = Ret (fd', None) ->
  exists filter,
    ReadIPListFile fs filename = Ret (Some filter, None)
    /\ fps fd' = fps fd ++ [mkFilterPair dialer (Some filter)]
    /\ fd_dialer fd' = fd_dialer fd
    /\ fd_Resolver fd' = fd_Resolver fd.
Proof.
  unfold LoadFilter.
  destruct (ReadIPListFile fs filename) as [[filter e]|] eqn:E; cbn; [|done].
  intros [= <- ->].
  destruct (ReadIPListFile_no_error _ _ _ E) as [f ->]. by exists f.
Qed.

Lemma LoadFilter_success_witness :
  let fd := Fixtures.one_pair Fixtures.failing_resolver in
  let fd' := mkFilteredDialer Fixtures.default_dialer Fixtures.failing_resolver
               [mkFilterPair Fixtures.first_dialer (Some Fixtures.filter_ten);
                mkFilterPair Fixtures.second_dialer
                             (Some Fixtures.filter_three)] in
  LoadFilter Fixtures.one_file fd Fixtures.second_dialer "list.txt"
  = Ret (fd', None)
  /\ exists filter,
       ReadIPListFile Fixtures.one_file "list.txt" = Ret (Some filter, None)
       /\ fps fd' = fps fd ++ [mkFilterPair Fixtures.second_dialer (Some filter)]
       /\ fd_dialer fd' = fd_dialer fd
       /\ fd_Resolver fd' = fd_Resolver fd.
Proof.
  intros fd fd'.
  assert (LoadFilter Fixtures.one_file fd Fixtures.second_dialer "list.txt"
          = Ret (fd', None)) as Hload by (vm_compute; reflexivity).
  split; [exact Hload|].
  exact (LoadFilter_success _ _ _ _ _ Hload).
Defined.

(** ** Further properties of the routing dialer *)

Lemma try_pair_outcome (network address : string) (fp : FilterPair)
    (addrs : list IP) :
  try_pair network address addrs fp = ([], Ret None)
  \/ (exists msg, try_pair network address addrs fp = ([], Panic msg))
  \/ try_pair network address addrs fp
     = ([EvDial (dialer_name (fp_dialer fp)) network address],
        Ret (Some (dialer_Dial (fp_dialer fp) network address))).
Proof.
  unfold try_pair. induction addrs as [|addr addrs IH]; [by left|].
  cbn [for_range].
  destruct (filter_Contain (fp_filter fp) addr) as [[|]|msg] eqn:E.
  - rewrite (try_addr_hit network address fp addr E). right; right. done.
  - rewrite (try_addr_miss network address fp addr E). cbn.
    destruct IH as [-> |[[msg ->]| ->]]; [by left| |by right; right].
    right; left. by exists msg.
  - right; left. exists msg. unfold try_addr. by rewrite E.
Qed.

Lemma for_range_pairs_outcome (network address : string) (addrs : list IP)
    (pairs : list FilterPair) :
  for_range pairs (try_pair network address addrs) = ([], Ret None)
  \/ (exists msg,
        for_range pairs (try_pair network address addrs) = ([], Panic msg))
  \/ (exists fp,
        fp ∈ pairs
        /\ for_range pairs (try_pair network address addrs)
           = ([EvDial (dialer_name (fp_dialer fp)) network address],
              Ret (Some (dialer_Dial (fp_dialer fp) network address)))).
Proof.
  induction pairs as [|fp pairs IH]; [by left|].
  cbn [for_range].
  destruct (try_pair_outcome network address fp addrs) as [-> |[[msg ->]| ->]];
    cbn.
  - destruct IH as [-> |[[msg ->]|(fp' & Hin & ->)]].
    + by left.
    + right; left. by exists msg.
    + right; right. exists fp'. split; [by right|done].
  - right; left. by exists msg.
  - right; right. exists fp. split; [by left|done].
Qed.

Lemma Getaddrs_outcome (resolver : Resolver) (hostname : string) :
  exists lookups addrs,
    Getaddrs resolver hostname = (lookups, Ret addrs) /\ only_lookup lookups.
Proof.
  unfold Getaddrs, only_lookup. destruct (ParseIP hostname) as [|b tl].
  - cbn. destruct (LookupIP resolver hostname) as [ips err]. cbn.
    eexists _, _. split; [done|]. right. by eexists.
  - eexists _, _. split; [done|]. by left.
Qed.

(** X17. Every run of [Dial] is one of four: a single dial, through the
    default dialer or the dialer of a registered pair, with the network
    and the address [Dial] was given, whose result is returned as is;
    the error of [SplitHostPort], with no call made; [ErrDNSNotFound],
    with no dial; or a panic, with no dial. At most one resolver lookup
    is made, before the dial. *)
Theorem Dial_outcome (fd : FilteredDialer) (network address : string) :
  (exists lookups d,
      Dial fd network address
      = (lookups ++ [EvDial (dialer_name d) network address],
         Ret (dialer_Dial d network address))
      /\ only_lookup lookups
      /\ (d = fd_dialer fd \/ d ∈ map fp_dialer (fps fd)))
  \/ (exists e,
        Dial fd network address = ([], Ret (None, Some e))
        /\ snd (SplitHostPort address) = Some e)
  \/ (exists lookups,
        Dial fd network address = (lookups, Ret (None, Some ErrDNSNotFound))
        /\ only_lookup lookups)
  \/ (exists lookups msg,
        Dial fd network address = (lookups, Panic msg)
        /\ only_lookup lookups).
Proof.
  unfold Dial. case_bool_decide as Hfps.
  { left. exists [], (fd_dialer fd). split; [done|]. split; [by left|by left]. }
  destruct (SplitHostPort address) as [[hostname port] [e|]] eqn:Esplit.
  { right; left. by exists e. }
  destruct (Getaddrs_outcome (fd_Resolver fd) hostname)
    as (lookups & addrs & -> & Hlookups).
  destruct addrs as [addrs|]; cbn.
  - destruct (for_range_pairs_outcome network address addrs (fps fd))
      as [-> |[[msg ->]|(fp & Hin & ->)]]; cbn.
    + left. exists lookups, (fd_dialer fd). by auto.
    + right; right; right. exists lookups, msg. by rewrite app_nil_r.
    + left. exists lookups, (fp_dialer fp). split; [done|]. split; [done|].
      right. apply list_elem_of_fmap. by exists fp.
  - right; right; left. exists lookups. by rewrite app_nil_r.
Qed.

(** X18. Literal-address fast path: when the host part of the address
    is a literal IP address, [Dial] makes no resolver lookup, and its
    run is the same whatever the resolver is. *)
Theorem Dial_literal_address (fd : FilteredDialer) (resolver' : Resolver)
    (network address hostname port : string) :
  SplitHostPort address = (hostname, port, None) ->
  ParseIP hostname <> [] ->
  Dial fd network address
  = Dial (mkFilteredDialer (fd_dialer fd) resolver' (fps fd)) network address
  /\ forall h, EvLookupIP h ∉ fst (Dial fd network address).
Proof.
  intros Hsplit Hliteral. unfold Dial. cbn [fps fd_dialer fd_Resolver].
  case_bool_decide as Hfps.
  { split; [done|]. intros h Hin. cbn in Hin.
    apply list_elem_of_singleton in Hin. done. }
  rewrite Hsplit. unfold Getaddrs.
  destruct (ParseIP hostname) as [|b tl]; [done|]. split; [done|].
  intros h. cbn.
  destruct (for_range_pairs_outcome network address [b :: tl] (fps fd))
    as [-> |[[msg ->]|(fp & _ & ->)]]; cbn; intros Hin.
  - apply list_elem_of_singleton in Hin. done.
  - by apply elem_of_nil in Hin.
  - apply list_elem_of_singleton in Hin. done.
Qed.

Lemma Dial_literal_address_witness :
  let fd := Fixtures.one_pair Fixtures.failing_resolver in
  SplitHostPort "10.0.0.5:443" = ("10.0.0.5", "443", None)%string
  /\ ParseIP "10.0.0.5" <> []
  /\ Dial fd "tcp" "10.0.0.5:443"
     = Dial (mkFilteredDialer (fd_dialer fd)
               (Fixtures.constant_resolver (Some [[8; 8; 8; 8]])) (fps fd))
            "tcp" "10.0.0.5:443"
  /\ forall h, EvLookupIP h ∉ fst (Dial fd "tcp" "10.0.0.5:443").
Proof.
  intros fd.
  assert (SplitHostPort "10.0.0.5:443" = ("10.0.0.5", "443", None)%string)
    as Hsplit by (vm_compute; reflexivity).
  assert (ParseIP "10.0.0.5" <> []) as Hliteral by (vm_compute; discriminate).
  split; [exact Hsplit|]. split; [exact Hliteral|].
  exact (Dial_literal_address fd
           (Fixtures.constant_resolver (Some [[8; 8; 8; 8]]))
           "tcp" "10.0.0.5:443" "10.0.0.5" "443" Hsplit Hliteral).
Defined.

(** X19. A lookup that gives a nil slice, with or without an error, makes
    [Dial] fail with [ErrDNSNotFound] after the single lookup: the error
    of the resolver is not returned and no dialer is called. *)
Theorem Dial_lookup_nil (fd : FilteredDialer)
    (network address hostname port : string) (err : option error) :
  fps fd <> [] ->
  SplitHostPort address = (hostname, port, None) ->
  ParseIP hostname = [] ->
  LookupIP (fd_Resolver fd) hostname = (None, err) ->
  Dial fd network address
  = ([EvLookupIP hostname], Ret (None, Some ErrDNSNotFound)).
Proof.
  intros Hfps Hsplit Hname Hlookup.
  apply (Dial_nil_candidates fd network address hostname port); try done.
  unfold Getaddrs. rewrite Hname. cbn. by rewrite Hlookup.
Qed.

Lemma Dial_lookup_nil_witness :
  let fd := Fixtures.one_pair Fixtures.failing_resolver in
  fps fd <> []
  /\ SplitHostPort "blocked.example:443"
     = ("blocked.example", "443", None)%string
  /\ ParseIP "blocked.example" = []
  /\ LookupIP (fd_Resolver fd) "blocked.example"
     = (None, Some (OtherError "no such host"))
  /\ Dial fd "tcp" "blocked.example:443"
     = ([EvLookupIP "blocked.example"], Ret (None, Some ErrDNSNotFound)).
Proof.
  intros fd.
  assert (fps fd <> []) as Hfps by (vm_compute; discriminate).
  assert (SplitHostPort "blocked.example:443"
          = ("blocked.example", "443", None)%string) as Hsplit
    by (vm_compute; reflexivity).
  assert (ParseIP "blocked.example" = []) as Hname by (vm_compute; reflexivity).
  assert (LookupIP (fd_Resolver fd) "blocked.example"
          = (None, Some (OtherError "no such host"))) as Hlookup
    by reflexivity.
  split; [exact Hfps|]. split; [exact Hsplit|]. split; [exact Hname|].
  split; [exact Hlookup|].
  exact (Dial_lookup_nil fd "tcp" "blocked.example:443" "blocked.example"
           "443" _ Hfps Hsplit Hname Hlookup).
Defined.

Lemma filter_Contain_is_hit (f : IPFilter) (addr : IP) :
  (2 <= length addr)%nat ->
  filter_Contain (Some f) addr = Ret (is_hit f addr).
Proof.
  intros Hlen. cbn. unfold is_hit.
  destruct (Contain_returns f addr) as [b ->];
    [by apply to4_or_self_length_ge|].
  by destruct b.
Qed.

Lemma try_pair_loaded (network address : string) (fp : FilterPair)
    (f : IPFilter) (addrs : list IP) :
  fp_filter fp = Some f ->
  Forall (fun addr => (2 <= length addr)%nat) addrs ->
  try_pair network address addrs fp
  = if existsb (is_hit f) addrs
    then ([EvDial (dialer_name (fp_dialer fp)) network address],
          Ret (Some (dialer_Dial (fp_dialer fp) network address)))
    else ([], Ret None).
Proof.
  intros Hf. unfold try_pair.
  induction 1 as [|addr addrs Hlen _ IH]; [done|].
  cbn [for_range existsb].
  pose proof (filter_Contain_is_hit f addr Hlen) as Hhit. rewrite <- Hf in Hhit.
  destruct (is_hit f addr).
  - by rewrite (try_addr_hit network address fp addr Hhit).
  - rewrite (try_addr_miss network address fp addr Hhit). cbn. rewrite IH.
    by destruct (existsb (is_hit f) addrs).
Qed.

Lemma existsb_Permutation {A} (p : A -> bool) (l l' : list A) :
  l ≡ₚ l' -> existsb p l = existsb p l'.
Proof.
  induction 1 as [|x l l' _ IH|x y l|l l' l'' _ IH _ IH']; cbn.
  - done.
  - by rewrite IH.
  - by destruct (p x), (p y).
  - congruence.
Qed.

(** X20. The order of the candidate addresses does not change the
    routing: when every registered pair has an index and every candidate
    has two bytes or more, [Dial] runs the same for two resolvers whose
    answers are permutations of each other. *)
Theorem Dial_address_order (fd : FilteredDialer) (resolver' : Resolver)
    (network address hostname port : string) (lookups : list event)
    (addrs addrs' : list IP) :
  Forall (fun fp => is_Some (fp_filter fp)) (fps fd) ->
  SplitHostPort address = (hostname, port, None) ->
  Getaddrs (fd_Resolver fd) hostname = (lookups, Ret (Some addrs)) ->
  Getaddrs resolver' hostname = (lookups, Ret (Some addrs')) ->
  addrs ≡ₚ addrs' ->
  Forall (fun addr => (2 <= length addr)%nat) addrs ->
  Dial fd network address
  = Dial (mkFilteredDialer (fd_dialer fd) resolver' (fps fd)) network address.
Proof.
  intros Hloaded Hsplit Haddrs Haddrs' Hperm Hlen.
  assert (Forall (fun addr => (2 <= length addr)%nat) addrs') as Hlen'
    by (by rewrite <- Hperm).
  assert (for_range (fps fd) (try_pair network address addrs)
          = for_range (fps fd) (try_pair network address addrs')) as Hscan.
  { induction Hloaded as [|fp pairs [f Hf] _ IH]; [done|].
    cbn [for_range].
    rewrite (try_pair_loaded network address fp f addrs Hf Hlen).
    rewrite (try_pair_loaded network address fp f addrs' Hf Hlen').
    rewrite (existsb_Permutation _ _ _ Hperm).
    destruct (existsb (is_hit f) addrs'); [done|]. cbn. by rewrite IH. }
  unfold Dial. cbn [fps fd_dialer fd_Resolver].
  case_bool_decide; [done|]. rewrite Hsplit, Haddrs, Haddrs'. cbn.
  by rewrite Hscan.
Qed.

Lemma Dial_address_order_witness :
  let fd := Fixtures.two_pairs
              (Fixtures.constant_resolver (Some [[8; 8; 8; 8]; [10; 0; 0; 5]])) in
  let resolver' :=
    Fixtures.constant_resolver (Some [[10; 0; 0; 5]; [8; 8; 8; 8]]) in
  Forall (fun fp => is_Some (fp_filter fp)) (fps fd)
  /\ SplitHostPort "blocked.example:443"
     = ("blocked.example", "443", None)%string
  /\ Getaddrs (fd_Resolver fd) "blocked.example"
     = ([EvLookupIP "blocked.example"],
        Ret (Some [[8; 8; 8; 8]; [10; 0; 0; 5]]))
  /\ Getaddrs resolver' "blocked.example"
     = ([EvLookupIP "blocked.example"],
        Ret (Some [[10; 0; 0; 5]; [8; 8; 8; 8]]))
  /\ [[8; 8; 8; 8]; [10; 0; 0; 5]] ≡ₚ [[10; 0; 0; 5]; [8; 8; 8; 8]]
  /\ Forall (fun addr : IP => (2 <= length addr)%nat)
            [[8; 8; 8; 8]; [10; 0; 0; 5]]
  /\ Dial fd "tcp" "blocked.example:443"
     = Dial (mkFilteredDialer (fd_dialer fd) resolver' (fps fd))
            "tcp" "blocked.example:443".
Proof.
  intros fd resolver'.
  assert (Forall (fun fp => is_Some (fp_filter fp)) (fps fd)) as Hloaded
    by (repeat constructor; by eexists).
  assert (SplitHostPort "blocked.example:443"
          = ("blocked.example", "443", None)%string) as Hsplit
    by (vm_compute; reflexivity).
  assert (Getaddrs (fd_Resolver fd) "blocked.example"
          = ([EvLookupIP "blocked.example"],
             Ret (Some [[8; 8; 8; 8]; [10; 0; 0; 5]]))) as Haddrs
    by (vm_compute; reflexivity).
  assert (Getaddrs resolver' "blocked.example"
          = ([EvLookupIP "blocked.example"],
             Ret (Some [[10; 0; 0; 5]; [8; 8; 8; 8]]))) as Haddrs'
    by (vm_compute; reflexivity).
  assert ([[8; 8; 8; 8]; [10; 0; 0; 5]] ≡ₚ [[10; 0; 0; 5]; [8; 8; 8; 8]])
    as Hperm by apply perm_swap.
  assert (Forall (fun addr : IP => (2 <= length addr)%nat)
            [[8; 8; 8; 8]; [10; 0; 0; 5]]) as Hlen
    by (repeat constructor; simpl; lia).
  split; [exact Hloaded|]. split; [exact Hsplit|]. split; [exact Haddrs|].
  split; [exact Haddrs'|]. split; [exact Hperm|]. split; [exact Hlen|].
  exact (Dial_address_order fd resolver' "tcp" "blocked.example:443"
           "blocked.example" "443" _ _ _
           Hloaded Hsplit Haddrs Haddrs' Hperm Hlen).
Defined.

Lemma for_range_pairs_loaded (network address : string) (addrs : list IP)
    (pairs : list FilterPair) :
  Forall (fun fp => is_Some (fp_filter fp)) pairs ->
  Forall (fun addr => (2 <= length addr)%nat) addrs ->
  exists t r, for_range pairs (try_pair network address addrs) = (t, Ret r).
Proof.
  intros Hloaded Hlen.
  induction Hloaded as [|fp pairs [f Hf] _ IH]; [by eexists _, _|].
  cbn [for_range].
  rewrite (try_pair_loaded network address fp f addrs Hf Hlen).
  destruct (existsb (is_hit f) addrs); [by eexists _, _|].
  destruct IH as (t & r & ->). cbn. by eexists _, _.
Qed.

(** X21. [Dial] does not panic when every registered pair has an index
    and the resolver only returns addresses of two bytes or more: it
    returns a connection or an error. *)
Theorem Dial_no_panic (fd : FilteredDialer) (network address : string) :
  Forall (fun fp => is_Some (fp_filter fp)) (fps fd) ->
  (forall hostname ips err,
      LookupIP (fd_Resolver fd) hostname = (Some ips, err) ->
      Forall (fun addr => (2 <= length addr)%nat) ips) ->
  exists t res, Dial fd network address = (t, Ret res).
Proof.
  intros Hloaded Hresolver. unfold Dial.
  case_bool_decide; [by eexists _, _|].
  destruct (SplitHostPort address) as [[hostname port] [e|]];
    [by eexists _, _|].
  assert (exists lookups addrs,
            Getaddrs (fd_Resolver fd) hostname = (lookups, Ret addrs)
            /\ match addrs with
               | Some addrs => Forall (fun addr => (2 <= length addr)%nat) addrs
               | None => True
               end) as (lookups & addrs & -> & Hlen).
  { unfold Getaddrs. destruct (ParseIP_length hostname) as [E|E].
    - rewrite E. cbn.
      destruct (LookupIP (fd_Resolver fd) hostname) as [[ips|] err] eqn:El;
        cbn; eexists _, _; (split; [done|]); [by eapply Hresolver|done].
    - destruct (ParseIP hostname) as [|b tl] eqn:Eip; [done|].
      eexists _, _. split; [done|].
      constructor; [|constructor]. rewrite E. lia. }
  destruct addrs as [addrs|]; cbn; [|by eexists _, _].
  destruct (for_range_pairs_loaded network address addrs (fps fd) Hloaded Hlen)
    as (t & r & ->).
  cbn. destruct r; cbn; by eexists _, _.
Qed.

Lemma Dial_no_panic_witness :
  let fd := Fixtures.two_pairs
              (Fixtures.constant_resolver (Some [[10; 0; 0; 5]])) in
  Forall (fun fp => is_Some (fp_filter fp)) (fps fd)
  /\ (forall hostname ips err,
         LookupIP (fd_Resolver fd) hostname = (Some ips, err) ->
         Forall (fun addr => (2 <= length addr)%nat) ips)
  /\ exists t res, Dial fd "tcp" "blocked.example:443" = (t, Ret res).
Proof.
  intros fd.
  assert (Forall (fun fp => is_Some (fp_filter fp)) (fps fd)) as Hloaded
    by (repeat constructor; by eexists).
  assert (forall hostname ips err,
             LookupIP (fd_Resolver fd) hostname = (Some ips, err) ->
             Forall (fun addr => (2 <= length addr)%nat) ips) as Hresolver.
  { intros hostname ips err H. injection H as <- _.
    constructor; [simpl; lia|constructor]. }
  split; [exact Hloaded|]. split; [exact Hresolver|].
  exact (Dial_no_panic fd "tcp" "blocked.example:443" Hloaded Hresolver).
Defined.
